(** * hyprwhspr: the global shortcut engine of [lib/src/global_shortcuts.py]

    A shallow embedding of the class [GlobalShortcuts]: key-combination
    parsing, keyboard discovery, the press/release state machine with its
    two debounce timestamps, and the start/stop/update life cycle.

    Conventions of the embedding:
    - a Python [str] is a [string] of 8-bit characters; [lower], [upper]
      and [strip] act on the ASCII range as Python does, characters above
      127 are caseless and never white space;
    - a Python [set] of key codes is a [gset Z], the alias dictionary a
      [gmap string string];
    - [time.time()] is read by the caller and passed as [now : Q], in
      seconds; the debounce window 0.5 is the rational 1/2;
    - [print], [device.close()] and [threading.Thread(...).start()] are
      recorded as a list of effects returned next to the new state;
    - the listener thread is not part of the state: the events it reads
      are handed to [_process_event] one by one. *)

From Stdlib Require Import ZArith QArith String Ascii List Bool.
From stdpp Require Import base gmap sets list strings.
From stdpp Require Import pretty.

Close Scope Q_scope.
Local Open Scope string_scope.
Local Open Scope list_scope.
Local Open Scope Z_scope.

(** ** Python string primitives *)

Module PyStr.

Definition is_upper (c : ascii) : bool :=
  let n := nat_of_ascii c in (65 <=? n)%nat && (n <=? 90)%nat.

Definition is_lower (c : ascii) : bool :=
  let n := nat_of_ascii c in (97 <=? n)%nat && (n <=? 122)%nat.

Definition lower_char (c : ascii) : ascii :=
  if is_upper c then ascii_of_nat (nat_of_ascii c + 32) else c.

Definition upper_char (c : ascii) : ascii :=
  if is_lower c then ascii_of_nat (nat_of_ascii c - 32) else c.

(** [str.isspace] on one character: TAB, LF, VT, FF, CR, the four
    separators 0x1c..0x1f and the blank. *)
Definition is_space (c : ascii) : bool :=
  let n := nat_of_ascii c in
  ((9 <=? n)%nat && (n <=? 13)%nat) || ((28 <=? n)%nat && (n <=? 32)%nat).

Fixpoint map_chars (f : ascii → ascii) (s : string) : string :=
  match s with
  | EmptyString => EmptyString
  | String c r => String (f c) (map_chars f r)
  end.

(** [s.lower()] and [s.upper()] *)
Definition lower (s : string) : string := map_chars lower_char s.
Definition upper (s : string) : string := map_chars upper_char s.

(** [s.lstrip()] *)
Fixpoint lstrip (s : string) : string :=
  match s with
  | EmptyString => EmptyString
  | String c r => if is_space c then lstrip r else s
  end.

(** [s.rstrip()] *)
Fixpoint rstrip (s : string) : string :=
  match s with
  | EmptyString => EmptyString
  | String c r =>
      match rstrip r with
      | EmptyString => if is_space c then EmptyString else String c EmptyString
      | r' => String c r'
      end
  end.

(** [s.strip()] *)
Definition strip (s : string) : string := rstrip (lstrip s).

(** [s.replace(c, '')] for a one-character pattern [c] *)
Fixpoint remove_char (c : ascii) (s : string) : string :=
  match s with
  | EmptyString => EmptyString
  | String d r =>
      if Ascii.eqb d c then remove_char c r else String d (remove_char c r)
  end.

(** [s.split(c)] for a one-character separator: never the empty list *)
Fixpoint split (c : ascii) (s : string) : list string :=
  match s with
  | EmptyString => [EmptyString]
  | String d r =>
      if Ascii.eqb d c then EmptyString :: split c r
      else match split c r with
           | [] => [String d EmptyString]
           | p :: ps => String d p :: ps
           end
  end.

(** [s.startswith(p)] *)
Definition startswith (p s : string) : bool := String.prefix p s.

End PyStr.

(** ** The evdev collaborator

    [evdev.ecodes] belongs to the python-evdev package.  The numeric
    constants the engine names are those of the Linux header
    [input-event-codes.h]; the name table [ecodes.ecodes] is kept abstract
    (a variable of the parsing section) and instantiated with an excerpt
    for the worked examples. *)

Module ecodes.
Definition EV_KEY : Z := 1.
Definition KEY_A : Z := 30.
Definition KEY_S : Z := 31.
Definition KEY_D : Z := 32.
Definition KEY_F : Z := 33.
Definition KEY_F12 : Z := 88.
End ecodes.

(** [KeyEvent.key_up], [KeyEvent.key_down], [KeyEvent.key_hold] *)
Definition key_up : Z := 0.
Definition key_down : Z := 1.
Definition key_hold : Z := 2.

(** ** Effects: what the engine prints and which threads it starts *)

(** A callable is identified by a number. *)
Definition Callable := nat.

Inductive Message :=
| WarnUnknownKeyString (original key_name : string)
| WarnCouldNotParseKey (part key_string : string)
| WarnDefaultingToF12 (key_string : string)
| WarnSelectedDeviceNotFound (path : string)
| MsgAddedKeyboardDevice (name path : string)
| MsgCannotAccessDevice (name : string)
| MsgErrorDiscoveringKeyboards
| WarnNoAccessibleKeyboards
| MsgRunWithRootPrivileges
| MsgInitialized (primary_key : string)
| MsgParsedKeys (keys : list Z)
| MsgFoundDevices (n : nat)
| MsgTriggered (primary_key : string)
| MsgReleased (primary_key : string)
| MsgRediscovering
| MsgNoKeyboardDevicesAvailable
| MsgStarted (primary_key : string)
| MsgUpdatedShortcut (new_key : string).


Inductive Effect :=
| Stdout (m : Message)
| StartCallbackThread (target : Callable)
| StartReleaseThread (target : Callable)
| CloseDevice (path : string).

(** A computation that returns a value and the effects it performed. *)
Definition Eff (A : Type) : Type := A * list Effect.

Definition emit (e : Effect) : Eff unit := (tt, [e]).

#[global] Instance Eff_ret : MRet Eff := λ A a, (a, []).
#[global] Instance Eff_bind : MBind Eff := λ A B k m,
  let '(a, out1) := m in
  let '(b, out2) := k a in
  (b, out1 ++ out2).

(** How many activation / deactivation callbacks a run dispatched. *)
Definition is_activation (e : Effect) : bool :=
  match e with StartCallbackThread _ => true | _ => false end.
Definition is_deactivation (e : Effect) : bool :=
  match e with StartReleaseThread _ => true | _ => false end.

Definition activations (out : list Effect) : nat :=
  length (List.filter is_activation out).
Definition deactivations (out : list Effect) : nat :=
  length (List.filter is_deactivation out).

(** ** KEY_ALIASES *)

Definition KEY_ALIASES_items : list (string * string) :=
  [ (* left-side modifiers *)
    ("ctrl", "KEY_LEFTCTRL"); ("control", "KEY_LEFTCTRL"); ("lctrl", "KEY_LEFTCTRL");
    ("alt", "KEY_LEFTALT"); ("lalt", "KEY_LEFTALT");
    ("shift", "KEY_LEFTSHIFT"); ("lshift", "KEY_LEFTSHIFT");
    ("super", "KEY_LEFTMETA"); ("meta", "KEY_LEFTMETA"); ("lsuper", "KEY_LEFTMETA");
    ("win", "KEY_LEFTMETA"); ("windows", "KEY_LEFTMETA"); ("cmd", "KEY_LEFTMETA");
    (* right-side modifiers *)
    ("rctrl", "KEY_RIGHTCTRL"); ("rightctrl", "KEY_RIGHTCTRL");
    ("ralt", "KEY_RIGHTALT"); ("rightalt", "KEY_RIGHTALT");
    ("rshift", "KEY_RIGHTSHIFT"); ("rightshift", "KEY_RIGHTSHIFT");
    ("rsuper", "KEY_RIGHTMETA"); ("rightsuper", "KEY_RIGHTMETA"); ("rmeta", "KEY_RIGHTMETA");
    (* common special keys *)
    ("enter", "KEY_ENTER"); ("return", "KEY_ENTER");
    ("backspace", "KEY_BACKSPACE"); ("bksp", "KEY_BACKSPACE");
    ("tab", "KEY_TAB");
    ("caps", "KEY_CAPSLOCK"); ("capslock", "KEY_CAPSLOCK");
    ("esc", "KEY_ESC"); ("escape", "KEY_ESC");
    ("space", "KEY_SPACE"); ("spacebar", "KEY_SPACE");
    ("delete", "KEY_DELETE"); ("del", "KEY_DELETE");
    ("insert", "KEY_INSERT"); ("ins", "KEY_INSERT");
    ("home", "KEY_HOME");
    ("end", "KEY_END");
    ("pageup", "KEY_PAGEUP"); ("pgup", "KEY_PAGEUP");
    ("pagedown", "KEY_PAGEDOWN"); ("pgdn", "KEY_PAGEDOWN"); ("pgdown", "KEY_PAGEDOWN");
    (* arrow keys *)
    ("up", "KEY_UP"); ("uparrow", "KEY_UP");
    ("down", "KEY_DOWN"); ("downarrow", "KEY_DOWN");
    ("left", "KEY_LEFT"); ("leftarrow", "KEY_LEFT");
    ("right", "KEY_RIGHT"); ("rightarrow", "KEY_RIGHT");
    (* lock keys *)
    ("numlock", "KEY_NUMLOCK");
    ("scrolllock", "KEY_SCROLLLOCK"); ("scroll", "KEY_SCROLLLOCK");
    (* function keys *)
    ("f1", "KEY_F1"); ("f2", "KEY_F2"); ("f3", "KEY_F3"); ("f4", "KEY_F4");
    ("f5", "KEY_F5"); ("f6", "KEY_F6"); ("f7", "KEY_F7"); ("f8", "KEY_F8");
    ("f9", "KEY_F9"); ("f10", "KEY_F10"); ("f11", "KEY_F11"); ("f12", "KEY_F12");
    ("f13", "KEY_F13"); ("f14", "KEY_F14"); ("f15", "KEY_F15"); ("f16", "KEY_F16");
    ("f17", "KEY_F17"); ("f18", "KEY_F18"); ("f19", "KEY_F19"); ("f20", "KEY_F20");
    ("f21", "KEY_F21"); ("f22", "KEY_F22"); ("f23", "KEY_F23"); ("f24", "KEY_F24");
    (* numpad keys *)
    ("kp0", "KEY_KP0"); ("kp1", "KEY_KP1"); ("kp2", "KEY_KP2"); ("kp3", "KEY_KP3");
    ("kp4", "KEY_KP4"); ("kp5", "KEY_KP5"); ("kp6", "KEY_KP6"); ("kp7", "KEY_KP7");
    ("kp8", "KEY_KP8"); ("kp9", "KEY_KP9");
    ("kpenter", "KEY_KPENTER"); ("kpplus", "KEY_KPPLUS"); ("kpminus", "KEY_KPMINUS");
    ("kpmultiply", "KEY_KPASTERISK"); ("kpdivide", "KEY_KPSLASH");
    ("kpdot", "KEY_KPDOT"); ("kpperiod", "KEY_KPDOT");
    (* media keys *)
    ("mute", "KEY_MUTE"); ("volumemute", "KEY_MUTE");
    ("volumeup", "KEY_VOLUMEUP"); ("volup", "KEY_VOLUMEUP");
    ("volumedown", "KEY_VOLUMEDOWN"); ("voldown", "KEY_VOLUMEDOWN");
    ("play", "KEY_PLAYPAUSE"); ("playpause", "KEY_PLAYPAUSE");
    ("stop", "KEY_STOPCD"); ("mediastop", "KEY_STOPCD");
    ("nextsong", "KEY_NEXTSONG"); ("next", "KEY_NEXTSONG");
    ("previoussong", "KEY_PREVIOUSSONG"); ("prev", "KEY_PREVIOUSSONG");
    (* browser keys *)
    ("browser", "KEY_WWW");
    ("browserback", "KEY_BACK");
    ("browserforward", "KEY_FORWARD");
    ("refresh", "KEY_REFRESH");
    ("browsersearch", "KEY_SEARCH");
    ("favorites", "KEY_BOOKMARKS");
    (* system keys *)
    ("menu", "KEY_MENU");
    ("print", "KEY_PRINT"); ("printscreen", "KEY_SYSRQ"); ("prtsc", "KEY_SYSRQ");
    ("pause", "KEY_PAUSE"); ("break", "KEY_PAUSE") ].

(** The dictionary; no key occurs twice in the literal (see
    [KEY_ALIASES_keys_NoDup]). *)
Definition KEY_ALIASES : gmap string string := list_to_map KEY_ALIASES_items.

(** ** Parsing a key combination *)

Section Parsing.

(** [ecodes.ecodes.get]: the code of an evdev name, if it has one. *)
Variable ecodes_get : string → option Z.

(** Steps 1 and 2 of [_string_to_keycode]: the evdev name a
    lower-cased, stripped token stands for. *)
Definition resolve_key_name (key_string : string) : string :=
  match KEY_ALIASES !! key_string with
  | Some key_name => key_name
  | None =>
      let key_name := PyStr.upper key_string in
      if PyStr.startswith "KEY_" key_name then key_name
      else String.append "KEY_" key_name
  end.

Definition _string_to_keycode (key_string : string) : Eff (option Z) :=
  let original := key_string in
  let key_string := PyStr.strip (PyStr.lower key_string) in
  let key_name := resolve_key_name key_string in
  match ecodes_get key_name with
  | None =>
      emit (Stdout (WarnUnknownKeyString original key_name)) ;;
      mret None
  | Some code => mret (Some code)
  end.

(** The normalisation at the head of [_parse_key_combination]: lower,
    strip, drop the angle brackets, split at the plus signs. *)
Definition split_parts (key_string : string) : list string :=
  let key_lower := PyStr.strip (PyStr.lower key_string) in
  let key_lower :=
    PyStr.remove_char ">" (PyStr.remove_char "<" key_lower) in
  PyStr.split "+" key_lower.

(** The [for part in parts] loop, threading the set [keys]. *)
Fixpoint parse_loop (key_string : string) (parts : list string)
    (keys : gset Z) : Eff (gset Z) :=
  match parts with
  | [] => mret keys
  | part :: rest =>
      let part := PyStr.strip part in
      keycode ← _string_to_keycode part ;
      match keycode with
      | Some code => parse_loop key_string rest (keys ∪ {[ code ]})
      | None =>
          emit (Stdout (WarnCouldNotParseKey part key_string)) ;;
          parse_loop key_string rest keys
      end
  end.

Definition _parse_key_combination (key_string : string) : Eff (gset Z) :=
  keys ← parse_loop key_string (split_parts key_string) ∅ ;
  if decide (keys = ∅) then
    emit (Stdout (WarnDefaultingToF12 key_string)) ;;
    mret (keys ∪ {[ ecodes.KEY_F12 ]})
  else mret keys.

(** The evdev name one part of the split string stands for, as the
    loop and [_string_to_keycode] compute it. *)
Definition token_key_name (part : string) : string :=
  resolve_key_name (PyStr.strip (PyStr.lower (PyStr.strip part))).

Definition key_names (key_string : string) : list string :=
  token_key_name <$> split_parts key_string.

(** The codes of the parts that resolve, in order. *)
Definition resolved_codes (key_string : string) : list Z :=
  omap (λ part, fst (_string_to_keycode (PyStr.strip part)))
       (split_parts key_string).

End Parsing.

(** An excerpt of the Linux key table, used by the worked examples. *)
Definition linux_keys : gmap string Z :=
  list_to_map
    [ ("KEY_ESC", 1); ("KEY_1", 2); ("KEY_TAB", 15); ("KEY_ENTER", 28);
      ("KEY_LEFTCTRL", 29); ("KEY_A", 30); ("KEY_S", 31); ("KEY_D", 32);
      ("KEY_F", 33); ("KEY_LEFTSHIFT", 42); ("KEY_COMMA", 51);
      ("KEY_RIGHTSHIFT", 54); ("KEY_LEFTALT", 56); ("KEY_SPACE", 57);
      ("KEY_F11", 87); ("KEY_F12", 88); ("KEY_RIGHTCTRL", 97);
      ("KEY_RIGHTALT", 100); ("KEY_LEFTMETA", 125) ].

Definition linux_ecodes_get (key_name : string) : option Z :=
  linux_keys !! key_name.

(** ** Devices *)

(** What the engine observes of an [evdev.InputDevice]: its path, name
    and file descriptor, its capability table, and whether [grab()]
    succeeds for this process. *)
Record InputDevice := {
  path : string;
  name : string;
  fd : Z;
  capabilities : gmap Z (list Z);
  grabbable : bool;
}.

#[global] Instance InputDevice_eq_dec : EqDecision InputDevice.
Proof. solve_decision. Defined.

(** ** The engine state: the attributes of [GlobalShortcuts] *)

Record GlobalShortcuts := {
  primary_key : string;
  callback : option Callable;
  selected_device_path : option string;
  release_callback : option Callable;
  devices : list InputDevice;
  device_fds : gmap Z InputDevice;
  is_running : bool;
  stop_event : bool;
  pressed_keys : gset Z;
  last_trigger_time : Q;
  combination_active : bool;
  last_release_time : Q;
  target_keys : gset Z;
}.

(** [self.debounce_time]: assigned 0.5 in [__init__] and never again. *)
Definition debounce_time : Q := 1 # 2.

(** [x > y] on time stamps *)
Definition Qgt_bool (x y : Q) : bool := negb (Qle_bool x y).

(** Attribute assignments *)
Definition set_primary_key (v : string) (s : GlobalShortcuts) :=
  {| primary_key := v; callback := callback s;
     selected_device_path := selected_device_path s;
     release_callback := release_callback s; devices := devices s;
     device_fds := device_fds s; is_running := is_running s;
     stop_event := stop_event s; pressed_keys := pressed_keys s;
     last_trigger_time := last_trigger_time s;
     combination_active := combination_active s;
     last_release_time := last_release_time s;
     target_keys := target_keys s |}.

Definition set_callback_attr (v : option Callable) (s : GlobalShortcuts) :=
  {| primary_key := primary_key s; callback := v;
     selected_device_path := selected_device_path s;
     release_callback := release_callback s; devices := devices s;
     device_fds := device_fds s; is_running := is_running s;
     stop_event := stop_event s; pressed_keys := pressed_keys s;
     last_trigger_time := last_trigger_time s;
     combination_active := combination_active s;
     last_release_time := last_release_time s;
     target_keys := target_keys s |}.

Definition set_devices (v : list InputDevice) (s : GlobalShortcuts) :=
  {| primary_key := primary_key s; callback := callback s;
     selected_device_path := selected_device_path s;
     release_callback := release_callback s; devices := v;
     device_fds := device_fds s; is_running := is_running s;
     stop_event := stop_event s; pressed_keys := pressed_keys s;
     last_trigger_time := last_trigger_time s;
     combination_active := combination_active s;
     last_release_time := last_release_time s;
     target_keys := target_keys s |}.

Definition set_device_fds (v : gmap Z InputDevice) (s : GlobalShortcuts) :=
  {| primary_key := primary_key s; callback := callback s;
     selected_device_path := selected_device_path s;
     release_callback := release_callback s; devices := devices s;
     device_fds := v; is_running := is_running s;
     stop_event := stop_event s; pressed_keys := pressed_keys s;
     last_trigger_time := last_trigger_time s;
     combination_active := combination_active s;
     last_release_time := last_release_time s;
     target_keys := target_keys s |}.

Definition set_is_running (v : bool) (s : GlobalShortcuts) :=
  {| primary_key := primary_key s; callback := callback s;
     selected_device_path := selected_device_path s;
     release_callback := release_callback s; devices := devices s;
     device_fds := device_fds s; is_running := v;
     stop_event := stop_event s; pressed_keys := pressed_keys s;
     last_trigger_time := last_trigger_time s;
     combination_active := combination_active s;
     last_release_time := last_release_time s;
     target_keys := target_keys s |}.

Definition set_stop_event (v : bool) (s : GlobalShortcuts) :=
  {| primary_key := primary_key s; callback := callback s;
     selected_device_path := selected_device_path s;
     release_callback := release_callback s; devices := devices s;
     device_fds := device_fds s; is_running := is_running s;
     stop_event := v; pressed_keys := pressed_keys s;
     last_trigger_time := last_trigger_time s;
     combination_active := combination_active s;
     last_release_time := last_release_time s;
     target_keys := target_keys s |}.

Definition set_pressed_keys (v : gset Z) (s : GlobalShortcuts) :=
  {| primary_key := primary_key s; callback := callback s;
     selected_device_path := selected_device_path s;
     release_callback := release_callback s; devices := devices s;
     device_fds := device_fds s; is_running := is_running s;
     stop_event := stop_event s; pressed_keys := v;
     last_trigger_time := last_trigger_time s;
     combination_active := combination_active s;
     last_release_time := last_release_time s;
     target_keys := target_keys s |}.

Definition set_last_trigger_time (v : Q) (s : GlobalShortcuts) :=
  {| primary_key := primary_key s; callback := callback s;
     selected_device_path := selected_device_path s;
     release_callback := release_callback s; devices := devices s;
     device_fds := device_fds s; is_running := is_running s;
     stop_event := stop_event s; pressed_keys := pressed_keys s;
     last_trigger_time := v;
     combination_active := combination_active s;
     last_release_time := last_release_time s;
     target_keys := target_keys s |}.

Definition set_combination_active (v : bool) (s : GlobalShortcuts) :=
  {| primary_key := primary_key s; callback := callback s;
     selected_device_path := selected_device_path s;
     release_callback := release_callback s; devices := devices s;
     device_fds := device_fds s; is_running := is_running s;
     stop_event := stop_event s; pressed_keys := pressed_keys s;
     last_trigger_time := last_trigger_time s;
     combination_active := v;
     last_release_time := last_release_time s;
     target_keys := target_keys s |}.

Definition set_last_release_time (v : Q) (s : GlobalShortcuts) :=
  {| primary_key := primary_key s; callback := callback s;
     selected_device_path := selected_device_path s;
     release_callback := release_callback s; devices := devices s;
     device_fds := device_fds s; is_running := is_running s;
     stop_event := stop_event s; pressed_keys := pressed_keys s;
     last_trigger_time := last_trigger_time s;
     combination_active := combination_active s;
     last_release_time := v;
     target_keys := target_keys s |}.

Definition set_target_keys (v : gset Z) (s : GlobalShortcuts) :=
  {| primary_key := primary_key s; callback := callback s;
     selected_device_path := selected_device_path s;
     release_callback := release_callback s; devices := devices s;
     device_fds := device_fds s; is_running := is_running s;
     stop_event := stop_event s; pressed_keys := pressed_keys s;
     last_trigger_time := last_trigger_time s;
     combination_active := combination_active s;
     last_release_time := last_release_time s;
     target_keys := v |}.

(** ** Keyboard discovery *)

(** [_is_keyboard_device]: the device reports [EV_KEY] and at least one
    of the keys A, S, D, F. *)
Definition _is_keyboard_device (device : InputDevice) : bool :=
  match capabilities device !! ecodes.EV_KEY with
  | None => false
  | Some keys =>
      let keyboard_keys :=
        [ecodes.KEY_A; ecodes.KEY_S; ecodes.KEY_D; ecodes.KEY_F] in
      existsb (λ key, bool_decide (key ∈ keys)) keyboard_keys
  end.

(** Truth value of [self.selected_device_path]: neither [None] nor the
    empty string. *)
Definition selected_path (self : GlobalShortcuts) : option string :=
  match selected_device_path self with
  | Some p => if decide (p = "") then None else Some p
  | None => None
  end.

(** [self.selected_device_path and device.path == self.selected_device_path] *)
Definition is_selected (self : GlobalShortcuts) (device : InputDevice) : bool :=
  match selected_path self with
  | Some p => bool_decide (path device = p)
  | None => false
  end.

(** The [for device in devices] loop of [_discover_keyboards]. *)
Fixpoint discover_loop (candidates : list InputDevice)
    (self : GlobalShortcuts) : Eff GlobalShortcuts :=
  match candidates with
  | [] => mret self
  | device :: rest =>
      if _is_keyboard_device device then
        if grabbable device then
          (* grab() and ungrab() succeeded *)
          let self := set_devices (devices self ++ [device]) self in
          let self :=
            set_device_fds (<[fd device := device]> (device_fds self)) self in
          emit (Stdout (MsgAddedKeyboardDevice (name device) (path device))) ;;
          if is_selected self device then mret self (* break *)
          else discover_loop rest self
        else
          (* grab() raised OSError *)
          emit (Stdout (MsgCannotAccessDevice (name device))) ;;
          emit (CloseDevice (path device)) ;;
          discover_loop rest self
      else discover_loop rest self
  end.

(** The head of [_discover_keyboards]: which of the enumerated devices
    the loop will look at. *)
Definition select_candidates (all : list InputDevice)
    (self : GlobalShortcuts) : Eff (list InputDevice) :=
  match selected_path self with
  | Some p =>
      let only := List.filter (λ dev, bool_decide (path dev = p)) all in
      match only with
      | [] =>
          emit (Stdout (WarnSelectedDeviceNotFound p)) ;;
          (* fall back to auto-discovery *)
          mret all
      | _ => mret only
      end
  | None => mret all
  end.

(** [host] is what [evdev.list_devices()] and [evdev.InputDevice(path)]
    deliver: the opened devices, or [None] when enumerating or opening
    raises. *)
Definition _discover_keyboards (host : option (list InputDevice))
    (self : GlobalShortcuts) : Eff GlobalShortcuts :=
  let self := set_devices [] self in
  let self := set_device_fds ∅ self in
  self ←
    match host with
    | None => emit (Stdout MsgErrorDiscoveringKeyboards) ;; mret self
    | Some all =>
        candidates ← select_candidates all self ;
        discover_loop candidates self
    end ;
  match devices self with
  | [] =>
      emit (Stdout WarnNoAccessibleKeyboards) ;;
      emit (Stdout MsgRunWithRootPrivileges) ;;
      mret self
  | _ => mret self
  end.

(** ** The press/release state machine *)

(** A raw [evdev] input event.  [categorize(event).keystate] of a key
    event is its [value]: 0 up, 1 down, 2 hold.  [categorize] is evdev's
    and is taken to succeed on every key event handed to the engine. *)
Record InputEvent := {
  ev_type : Z;
  ev_code : Z;
  ev_value : Z;
}.

(** The comparison at the head of [_check_shortcut_combination]. *)
Definition keys_match (self : GlobalShortcuts) : bool :=
  if decide (size (target_keys self) = 1%nat)
  then bool_decide (target_keys self = pressed_keys self)
  else bool_decide (target_keys self ⊆ pressed_keys self).

Definition _trigger_callback (self : GlobalShortcuts) : Eff unit :=
  match callback self with
  | Some f =>
      emit (Stdout (MsgTriggered (primary_key self))) ;;
      emit (StartCallbackThread f)
  | None => mret tt
  end.

Definition _trigger_release_callback (self : GlobalShortcuts) : Eff unit :=
  match release_callback self with
  | Some f =>
      emit (Stdout (MsgReleased (primary_key self))) ;;
      emit (StartReleaseThread f)
  | None => mret tt
  end.

Definition _check_shortcut_combination (current_time : Q)
    (self : GlobalShortcuts) : Eff GlobalShortcuts :=
  if keys_match self then
    if negb (combination_active self)
       && Qgt_bool (current_time - last_trigger_time self) debounce_time
    then
      let self := set_last_trigger_time current_time self in
      let self := set_combination_active true self in
      _trigger_callback self ;;
      mret self
    else mret self
  else mret (set_combination_active false self).

Definition _check_combination_release (current_time : Q)
    (was_combination_active : bool) (self : GlobalShortcuts)
    : Eff GlobalShortcuts :=
  if was_combination_active
     && negb (bool_decide (target_keys self ⊆ pressed_keys self))
  then
    if Qgt_bool (current_time - last_release_time self) debounce_time then
      let self := set_last_release_time current_time self in
      let self := set_combination_active false self in
      _trigger_release_callback self ;;
      mret self
    else mret self
  else mret self.

(** [now] is the value [time.time()] returns while the event is
    processed. *)
Definition _process_event (now : Q) (event : InputEvent)
    (self : GlobalShortcuts) : Eff GlobalShortcuts :=
  if ev_type event =? ecodes.EV_KEY then
    let keystate := ev_value event in
    if keystate =? key_down then
      let self :=
        set_pressed_keys (pressed_keys self ∪ {[ ev_code event ]}) self in
      _check_shortcut_combination now self
    else if keystate =? key_up then
      let was_combination_active := combination_active self in
      let self :=
        set_pressed_keys (pressed_keys self ∖ {[ ev_code event ]}) self in
      _check_combination_release now was_combination_active self
    else mret self
  else mret self.

(** The events one listener run reads, each with its clock reading. *)
Fixpoint process_events (events : list (Q * InputEvent))
    (self : GlobalShortcuts) : Eff GlobalShortcuts :=
  match events with
  | [] => mret self
  | (now, event) :: rest =>
      self ← _process_event now event self ;
      process_events rest self
  end.

Definition Down (code : Z) : InputEvent :=
  {| ev_type := ecodes.EV_KEY; ev_code := code; ev_value := key_down |}.
Definition Up (code : Z) : InputEvent :=
  {| ev_type := ecodes.EV_KEY; ev_code := code; ev_value := key_up |}.
Definition Hold (code : Z) : InputEvent :=
  {| ev_type := ecodes.EV_KEY; ev_code := code; ev_value := key_hold |}.

(** ** Life cycle *)

(** [list.remove]: drop the first element equal to [device], if any. *)
Fixpoint remove_first (device : InputDevice) (l : list InputDevice)
    : list InputDevice :=
  match l with
  | [] => []
  | d :: r => if decide (d = device) then r else d :: remove_first device r
  end.

Definition _remove_device (device : InputDevice) (self : GlobalShortcuts)
    : Eff GlobalShortcuts :=
  let self := set_devices (remove_first device (devices self)) self in
  let self := set_device_fds (delete (fd device) (device_fds self)) self in
  emit (CloseDevice (path device)) ;;
  mret self.

(** [for device in self.devices[:]: self._remove_device(device)] *)
Fixpoint remove_devices (copy : list InputDevice) (self : GlobalShortcuts)
    : Eff GlobalShortcuts :=
  match copy with
  | [] => mret self
  | device :: rest =>
      self ← _remove_device device self ;
      remove_devices rest self
  end.

Definition start (host : option (list InputDevice)) (self : GlobalShortcuts)
    : Eff (bool * GlobalShortcuts) :=
  if is_running self then mret (true, self)
  else
    self ←
      match devices self with
      | [] => emit (Stdout MsgRediscovering) ;; _discover_keyboards host self
      | _ => mret self
      end ;
    match devices self with
    | [] => emit (Stdout MsgNoKeyboardDevicesAvailable) ;; mret (false, self)
    | _ =>
        let self := set_stop_event false self in
        let self := set_is_running true self in
        emit (Stdout (MsgStarted (primary_key self))) ;;
        mret (true, self)
    end.

(** The [join] of the listener thread has no counterpart here, and no
    statement of the [try] body raises: [_remove_device] swallows every
    exception itself. *)
Definition stop (self : GlobalShortcuts) : Eff GlobalShortcuts :=
  if negb (is_running self) then mret self
  else
    let self := set_stop_event true self in
    self ← remove_devices (devices self) self ;
    let self := set_is_running false self in
    let self := set_pressed_keys ∅ self in
    mret self.

Definition set_callback (f : Callable) (self : GlobalShortcuts)
    : GlobalShortcuts :=
  set_callback_attr (Some f) self.

Section Configuration.

Variable ecodes_get : string → option Z.

(** No statement of the [try] body raises on a [str]: the [except]
    branch, which returns [False], has no counterpart. *)
Definition update_shortcut (new_key : string) (self : GlobalShortcuts)
    : Eff (bool * GlobalShortcuts) :=
  new_target_keys ← _parse_key_combination ecodes_get new_key ;
  let self := set_primary_key new_key self in
  let self := set_target_keys new_target_keys self in
  emit (Stdout (MsgUpdatedShortcut new_key)) ;;
  mret (true, self).

Definition __init__ (host : option (list InputDevice))
    (primary_key : string) (callback release_callback : option Callable)
    (device_path : option string) : Eff GlobalShortcuts :=
  target ← _parse_key_combination ecodes_get primary_key ;
  let self :=
    {| primary_key := primary_key; callback := callback;
       selected_device_path := device_path;
       release_callback := release_callback;
       devices := []; device_fds := ∅;
       is_running := false; stop_event := false;
       pressed_keys := ∅; last_trigger_time := 0;
       combination_active := false; last_release_time := 0;
       target_keys := target |} in
  self ← _discover_keyboards host self ;
  emit (Stdout (MsgInitialized primary_key)) ;;
  emit (Stdout (MsgParsedKeys (elements (target_keys self)))) ;;
  emit (Stdout (MsgFoundDevices (length (devices self)))) ;;
  mret self.

End Configuration.

(** ** Worked configurations

    Two keyboards, and engines for the single key F12 and for the chord
    Ctrl+Alt+D, idle, started, and with the combination held. *)

Definition usb_keyboard : InputDevice :=
  {| path := "/dev/input/event0"; name := "USB Keyboard"; fd := 3;
     capabilities := {[ ecodes.EV_KEY := [1; 29; 30; 31; 32; 33; 42; 56; 88] ]};
     grabbable := true |}.

(** A keyboard another process holds: [grab()] raises. *)
Definition locked_keyboard : InputDevice :=
  {| path := "/dev/input/event1"; name := "Locked Keyboard"; fd := 4;
     capabilities := {[ ecodes.EV_KEY := [1; 29; 30; 31; 32; 33; 42; 56; 88] ]};
     grabbable := false |}.

Definition one_keyboard : option (list InputDevice) := Some [usb_keyboard].

Definition f12_idle : GlobalShortcuts :=
  fst (__init__ linux_ecodes_get one_keyboard "<f12>"
         (Some 1%nat) (Some 2%nat) None).
Definition f12_running : GlobalShortcuts :=
  snd (fst (start one_keyboard f12_idle)).
Definition f12_active : GlobalShortcuts :=
  fst (process_events [(1000%Q, Down 88)] f12_running).


Definition two_keyboards : list InputDevice := [usb_keyboard; locked_keyboard].


(** The state [_discover_keyboards] starts its search from. *)
Definition reset_devices (self : GlobalShortcuts) : GlobalShortcuts :=
  set_device_fds ∅ (set_devices [] self).

(** ** Key names for display *)

(** [s.replace(old, new)] for a non-empty [old]: matches are taken from
    the left and do not overlap.  [skip] counts the characters of the
    current match still to be passed over. *)
Fixpoint replace_from (skip : nat) (old new s : string) : string :=
  match s with
  | EmptyString => EmptyString
  | String c r =>
      match skip with
      | S k => replace_from k old new r
      | O =>
          if PyStr.startswith old s
          then String.append new
                 (replace_from (String.length old - 1) old new r)
          else String c (replace_from 0 old new r)
      end
  end.

Definition py_replace (old new s : string) : string :=
  replace_from 0 old new s.

Section Names.

(** [ecodes.KEY[keycode]] for the codes evdev knows under one name: the
    name, and [None] where the lookup raises [KeyError]. *)
Variable KEY : Z → option string.

Definition _keycode_to_name (keycode : Z) : string :=
  match KEY keycode with
  | Some key_name => py_replace "KEY_" "" key_name
  | None => String.append "KEY_" (pretty keycode)
  end.

End Names.

(** [normalize_key_name] *)
Definition normalize_key_name (key_name : string) : string :=
  PyStr.remove_char " " (PyStr.strip (PyStr.lower key_name)).

(** ** Computations with another effect alphabet *)

Definition Out (E A : Type) : Type := A * list E.

Definition say {E} (e : E) : Out E unit := (tt, [e]).

#[global] Instance Out_ret {E} : MRet (Out E) := λ A a, (a, []).
#[global] Instance Out_bind {E} : MBind (Out E) := λ A B k m,
  let '(a, out1) := m in
  let '(b, out2) := k a in
  (b, out1 ++ out2).

(** Run an engine computation inside a larger alphabet. *)
Definition lift {E A} (inj : Effect → E) (m : Eff A) : Out E A :=
  (fst m, inj <$> snd m).

(** ** The listener loop *)

(** What the loop does beyond the engine methods it calls: the print of
    its [except (OSError, IOError)] handler. *)
Inductive LoopEffect :=
| Engine (e : Effect)
| LostConnection (name : string).

(** What [device.read()] delivers for a ready descriptor: the pending
    events, each with the clock reading taken while it is processed, or
    [None] when the read raises [OSError]. *)
Definition ReadResult : Type := option (list (Q * InputEvent)).

(** The body of [for fd in ready_fds]. *)
Definition handle_ready (fd : Z) (result : ReadResult)
    (self : GlobalShortcuts) : Out LoopEffect GlobalShortcuts :=
  match device_fds self !! fd with
  | None => mret self
  | Some device =>
      match result with
      | Some events => lift Engine (process_events events self)
      | None =>
          say (LostConnection (name device)) ;;
          lift Engine (_remove_device device self)
      end
  end.

Fixpoint handle_all_ready (ready : list (Z * ReadResult))
    (self : GlobalShortcuts) : Out LoopEffect GlobalShortcuts :=
  match ready with
  | [] => mret self
  | (fd, result) :: rest =>
      self ← handle_ready fd result self ;
      handle_all_ready rest self
  end.

(** One pass of the [while] body; [ready] is what [select] and the reads
    deliver in this pass.  Without devices the pass only sleeps. *)
Definition event_loop_pass (ready : list (Z * ReadResult))
    (self : GlobalShortcuts) : Out LoopEffect GlobalShortcuts :=
  match devices self with
  | [] => mret self
  | _ => handle_all_ready ready self
  end.

(** [_event_loop] along a finite schedule of passes.  The stop event is
    tested at the head of every pass. *)
Fixpoint _event_loop (schedule : list (list (Z * ReadResult)))
    (self : GlobalShortcuts) : Out LoopEffect GlobalShortcuts :=
  match schedule with
  | [] => mret self
  | ready :: rest =>
      if stop_event self then mret self
      else
        self ← event_loop_pass ready self ;
        _event_loop rest self
  end.

(** ** The module-level device utilities *)

Inductive UtilMessage :=
| MsgErrorGettingKeyboards
| MsgTestingAccessibility
| MsgErrorTestingDevices
| MsgFoundAccessible (n : nat).

Inductive UtilEffect :=
| UtilStdout (m : UtilMessage)
| UtilClose (path : string).

(** An entry of the list [get_available_keyboards] returns. *)
Record KeyboardEntry := {
  kb_name : string;
  kb_path : string;
  kb_display_name : string;
}.

Definition keyboard_entry (device : InputDevice) : KeyboardEntry :=
  {| kb_name := name device;
     kb_path := path device;
     kb_display_name :=
       String.append (name device)
         (String.append " (" (String.append (path device) ")")) |}.

(** The [for device in devices] loop of [get_available_keyboards]. *)
Fixpoint available_loop (devices : list InputDevice)
    (keyboards : list KeyboardEntry) : Out UtilEffect (list KeyboardEntry) :=
  match devices with
  | [] => mret keyboards
  | device :: rest =>
      match capabilities device !! ecodes.EV_KEY with
      | None =>
          say (UtilClose (path device)) ;;
          available_loop rest keyboards
      | Some keys =>
          let keyboard_keys :=
            [ecodes.KEY_A; ecodes.KEY_S; ecodes.KEY_D; ecodes.KEY_F] in
          if existsb (λ key, bool_decide (key ∈ keys)) keyboard_keys then
            if grabbable device then
              let keyboards := keyboards ++ [keyboard_entry device] in
              say (UtilClose (path device)) ;;
              available_loop rest keyboards
            else
              (* except: pass; finally: close *)
              say (UtilClose (path device)) ;;
              available_loop rest keyboards
          else
            say (UtilClose (path device)) ;;
            available_loop rest keyboards
      end
  end.

Definition get_available_keyboards (host : option (list InputDevice))
    : Out UtilEffect (list KeyboardEntry) :=
  match host with
  | None => say (UtilStdout MsgErrorGettingKeyboards) ;; mret []
  | Some devices => available_loop devices []
  end.

(** An entry of the two lists of [test_key_accessibility]. *)
Record DeviceEntry := {
  entry_name : string;
  entry_path : string;
}.

Definition device_entry (device : InputDevice) : DeviceEntry :=
  {| entry_name := name device; entry_path := path device |}.

Record AccessResults := {
  accessible_devices : list DeviceEntry;
  inaccessible_devices : list DeviceEntry;
  total_devices : nat;
}.

(** The [for device in devices] loop of [test_key_accessibility]: a
    device without [EV_KEY] is passed over, and not closed. *)
Fixpoint access_loop (devices : list InputDevice) (results : AccessResults)
    : Out UtilEffect AccessResults :=
  match devices with
  | [] => mret results
  | device :: rest =>
      match capabilities device !! ecodes.EV_KEY with
      | Some _ =>
          let results :=
            if grabbable device then
              {| accessible_devices :=
                   accessible_devices results ++ [device_entry device];
                 inaccessible_devices := inaccessible_devices results;
                 total_devices := total_devices results |}
            else
              {| accessible_devices := accessible_devices results;
                 inaccessible_devices :=
                   inaccessible_devices results ++ [device_entry device];
                 total_devices := total_devices results |} in
          say (UtilClose (path device)) ;;
          access_loop rest results
      | None => access_loop rest results
      end
  end.

Definition test_key_accessibility (host : option (list InputDevice))
    : Out UtilEffect AccessResults :=
  say (UtilStdout MsgTestingAccessibility) ;;
  let results :=
    {| accessible_devices := []; inaccessible_devices := [];
       total_devices := 0 |} in
  results ←
    match host with
    | None => say (UtilStdout MsgErrorTestingDevices) ;; mret results
    | Some devices =>
        let results :=
          {| accessible_devices := accessible_devices results;
             inaccessible_devices := inaccessible_devices results;
             total_devices := length devices |} in
        access_loop devices results
    end ;
  say (UtilStdout (MsgFoundAccessible (length (accessible_devices results)))) ;;
  mret results.

(** ** Vocabulary of the further properties *)

(** [old in s]: the pattern occurs somewhere in the string. *)
Fixpoint occurs (old s : string) : bool :=
  match s with
  | EmptyString => PyStr.startswith old EmptyString
  | String _ r => PyStr.startswith old s || occurs old r
  end.

(** No white space at the head, resp. at the end, of a string. *)
Definition head_ok (s : string) : Prop :=
  match s with
  | EmptyString => True
  | String c _ => PyStr.is_space c = false
  end.

Fixpoint last_ok (s : string) : Prop :=
  match s with
  | EmptyString => True
  | String c EmptyString => PyStr.is_space c = false
  | String _ r => last_ok r
  end.

(** The excerpt of the Linux key table read from codes to names. *)
Definition linux_KEY (keycode : Z) : option string :=
  (list_to_map
     [ (1, "KEY_ESC"); (2, "KEY_1"); (15, "KEY_TAB"); (28, "KEY_ENTER");
       (29, "KEY_LEFTCTRL"); (30, "KEY_A"); (31, "KEY_S"); (32, "KEY_D");
       (33, "KEY_F"); (42, "KEY_LEFTSHIFT"); (51, "KEY_COMMA");
       (54, "KEY_RIGHTSHIFT"); (56, "KEY_LEFTALT"); (57, "KEY_SPACE");
       (87, "KEY_F11"); (88, "KEY_F12"); (97, "KEY_RIGHTCTRL");
       (100, "KEY_RIGHTALT"); (125, "KEY_LEFTMETA") ] : gmap Z string)
  !! keycode.

(** A device that passes the keyboard test and the grab probe. *)
Definition accessible_keyboard (device : InputDevice) : bool :=
  _is_keyboard_device device && grabbable device.

(** [ecodes.EV_KEY in device.capabilities()] *)
Definition has_ev_key (device : InputDevice) : bool :=
  bool_decide (is_Some (capabilities device !! ecodes.EV_KEY)).

(** Two states with the same configuration: shortcut string, target
    keys, callbacks and selected device path. *)
Definition same_config (a b : GlobalShortcuts) : Prop :=
  primary_key a = primary_key b
  ∧ target_keys a = target_keys b
  ∧ callback a = callback b
  ∧ release_callback a = release_callback b
  ∧ selected_device_path a = selected_device_path b.

(** Two states with the same key tracking: pressed set, combination flag
    and both debounce stamps. *)
Definition same_key_state (a b : GlobalShortcuts) : Prop :=
  pressed_keys a = pressed_keys b
  ∧ combination_active a = combination_active b
  ∧ last_trigger_time a = last_trigger_time b
  ∧ last_release_time a = last_release_time b.

(** The descriptor table lists the devices of the device list, each
    under its own descriptor. *)
Definition fds_consistent (self : GlobalShortcuts) : Prop :=
  (∀ i d, device_fds self !! i = Some d → d ∈ devices self ∧ fd d = i)
  ∧ dom (device_fds self) = list_to_set (fd <$> devices self).

(** The first enumerated device of path [p] that passes the keyboard
    test and the grab probe. *)
Definition first_accessible_at (p : string) (all : list InputDevice)
    : option InputDevice :=
  List.find (λ d, bool_decide (path d = p) && accessible_keyboard d) all.

(** The events one pass hands to the engine when every read succeeds:
    those of the ready descriptors the table knows. *)
Definition served (fds : gmap Z InputDevice) (ready : list (Z * ReadResult))
    : list (Q * InputEvent) :=
  flat_map
    (λ fr : Z * ReadResult,
       match fds !! fr.1, fr.2 with
       | Some _, Some events => events
       | _, _ => []
       end)
    ready.

(** An engine with both keyboards accessible, running. *)
Definition spare_keyboard : InputDevice :=
  {| path := "/dev/input/event2"; name := "Spare Keyboard"; fd := 5;
     capabilities := {[ ecodes.EV_KEY := [1; 29; 30; 31; 32; 33; 42; 56; 88] ]};
     grabbable := true |}.

Definition f12_two_devices : GlobalShortcuts :=
  snd (fst (start (Some [usb_keyboard; spare_keyboard])
              (fst (__init__ linux_ecodes_get
                      (Some [usb_keyboard; spare_keyboard]) "<f12>"
                      (Some 1%nat) (Some 2%nat) None)))).




(** ** Histories of an engine *)

(** What can happen to an engine after its construction: a call of one
    of its public methods, or a pass of the listener loop.  The listener
    thread exists from a successful [start] on and leaves the loop when
    it finds the stop event set; its passes are taken while the engine
    is running. *)
Inductive Call :=
| CallStart (host : option (list InputDevice))
| CallStop
| CallUpdateShortcut (new_key : string)
| CallSetCallback (f : Callable)
| LoopPass (ready : list (Z * ReadResult)).

(** What every history keeps. *)
Definition engine_ok (s : GlobalShortcuts) : Prop :=
  target_keys s ≠ ∅
  ∧ (is_running s = false → pressed_keys s = ∅)
  ∧ (is_running s = true → stop_event s = false).

Section Histories.

Variable ecodes_get : string → option Z.

Definition run_call (self : GlobalShortcuts) (c : Call) : GlobalShortcuts :=
  match c with
  | CallStart host => snd (fst (start host self))
  | CallStop => fst (stop self)
  | CallUpdateShortcut new_key =>
      snd (fst (update_shortcut ecodes_get new_key self))
  | CallSetCallback f => set_callback f self
  | LoopPass ready =>
      if is_running self then fst (_event_loop [ready] self) else self
  end.

Definition run_calls (self : GlobalShortcuts) (calls : list Call)
    : GlobalShortcuts :=
  foldl run_call self calls.

End Histories.

(** ** The methods at run time

    The definitions above take three things for granted: that Python's
    string methods act on ASCII text, that [print] succeeds, and that
    [evdev.categorize] returns.  The module [Runtime] drops these
    assumptions.  [str.lower], [str.upper] and [str.strip] are parameters
    (a [string] holds the UTF-8 bytes of the text); [print] raises
    [UnicodeEncodeError] on a text the output encoding refuses;
    [categorize] raises [KeyError] for a key code outside [ecodes.keys],
    and reading [keystate] raises [AttributeError] for an event value
    other than 0, 1, 2.  A method is a function from the engine state to
    an outcome (a value or the exception that leaves the method), the
    state as the method leaves it, and the effects performed until
    then. *)

Inductive Raised := KeyError | AttributeError | UnicodeEncodeError.

Inductive RuntimeEffect :=
| Eng (e : Effect)
| StdoutLostConnection (name : string)
| StdoutErrorInEventLoop (exc : Raised)
| StdoutFailedToUpdate (exc : Raised).

Record Result (A : Type) := {
  outcome : Raised + A;
  self_after : GlobalShortcuts;
  performed : list RuntimeEffect;
}.
Arguments outcome {A} _.
Arguments self_after {A} _.
Arguments performed {A} _.

Definition Run (A : Type) : Type := GlobalShortcuts → Result A.

#[global] Instance Run_ret : MRet Run := λ A a self,
  {| outcome := inr a; self_after := self; performed := [] |}.

#[global] Instance Run_bind : MBind Run := λ A B k m self,
  let r := m self in
  match outcome r with
  | inl exc =>
      {| outcome := inl exc; self_after := self_after r;
         performed := performed r |}
  | inr a =>
      let r' := k a (self_after r) in
      {| outcome := outcome r'; self_after := self_after r';
         performed := performed r ++ performed r' |}
  end.

Module Runtime.

Definition raise {A} (exc : Raised) : Run A := λ self,
  {| outcome := inl exc; self_after := self; performed := [] |}.

Definition perform (e : RuntimeEffect) : Run unit := λ self,
  {| outcome := inr tt; self_after := self; performed := [e] |}.

(** Reading [self], and assigning to one of its attributes. *)
Definition read_self : Run GlobalShortcuts := λ self,
  {| outcome := inr self; self_after := self; performed := [] |}.

Definition assign (f : GlobalShortcuts → GlobalShortcuts) : Run unit :=
  λ self, {| outcome := inr tt; self_after := f self; performed := [] |}.

(** A method none of whose statements raises. *)
Definition embed (f : GlobalShortcuts → Eff GlobalShortcuts) : Run unit :=
  λ self,
  {| outcome := inr tt; self_after := fst (f self);
     performed := Eng <$> snd (f self) |}.

(** [try: body except Exception as e: handler(e)] *)
Definition try_except {A} (body : Run A) (handler : Raised → Run A) : Run A :=
  λ self,
  let r := body self in
  match outcome r with
  | inr _ => r
  | inl exc =>
      let h := handler exc (self_after r) in
      {| outcome := outcome h; self_after := self_after h;
         performed := performed r ++ performed h |}
  end.

Section Strings.

(** [str.lower], [str.upper], [str.strip] *)
Variables lower upper strip : string → string.
(** Whether the encoding of the standard output accepts a text. *)
Variable encodable : string → bool.
(** [ecodes.ecodes.get] *)
Variable ecodes_get : string → option Z.

(** Whether the text of a message can be written: its fixed parts are
    ASCII, numbers are digits, so the texts spliced in decide. *)
Definition printable (m : Message) : bool :=
  match m with
  | WarnUnknownKeyString original key_name =>
      encodable original && encodable key_name
  | WarnCouldNotParseKey part key_string =>
      encodable part && encodable key_string
  | WarnDefaultingToF12 key_string => encodable key_string
  | WarnSelectedDeviceNotFound p => encodable p
  | MsgAddedKeyboardDevice n p => encodable n && encodable p
  | MsgCannotAccessDevice n => encodable n
  | MsgInitialized k | MsgTriggered k | MsgReleased k | MsgStarted k
  | MsgUpdatedShortcut k => encodable k
  | _ => true
  end.

(** [print(...)] *)
Definition py_print (m : Message) : Run unit :=
  if printable m then perform (Eng (Stdout m)) else raise UnicodeEncodeError.

Definition resolve_key_name (key_string : string) : string :=
  match KEY_ALIASES !! key_string with
  | Some key_name => key_name
  | None =>
      let key_name := upper key_string in
      if PyStr.startswith "KEY_" key_name then key_name
      else String.append "KEY_" key_name
  end.

Definition _string_to_keycode (key_string : string) : Run (option Z) :=
  let original := key_string in
  let key_string := strip (lower key_string) in
  let key_name := resolve_key_name key_string in
  match ecodes_get key_name with
  | None =>
      py_print (WarnUnknownKeyString original key_name) ;;
      mret None
  | Some code => mret (Some code)
  end.

Definition split_parts (key_string : string) : list string :=
  let key_lower := strip (lower key_string) in
  let key_lower :=
    PyStr.remove_char ">" (PyStr.remove_char "<" key_lower) in
  PyStr.split "+" key_lower.

Fixpoint parse_loop (key_string : string) (parts : list string)
    (keys : gset Z) : Run (gset Z) :=
  match parts with
  | [] => mret keys
  | part :: rest =>
      let part := strip part in
      keycode ← _string_to_keycode part ;
      match keycode with
      | Some code => parse_loop key_string rest (keys ∪ {[ code ]})
      | None =>
          py_print (WarnCouldNotParseKey part key_string) ;;
          parse_loop key_string rest keys
      end
  end.

Definition _parse_key_combination (key_string : string) : Run (gset Z) :=
  keys ← parse_loop key_string (split_parts key_string) ∅ ;
  if decide (keys = ∅) then
    py_print (WarnDefaultingToF12 key_string) ;;
    mret (keys ∪ {[ ecodes.KEY_F12 ]})
  else mret keys.

(** The handler prints the text of the exception, which is ASCII. *)
Definition update_shortcut (new_key : string) : Run bool :=
  try_except
    (new_target_keys ← _parse_key_combination new_key ;
     assign (set_primary_key new_key) ;;
     assign (set_target_keys new_target_keys) ;;
     py_print (MsgUpdatedShortcut new_key) ;;
     mret true)
    (λ e, perform (StdoutFailedToUpdate e) ;; mret false).

(** The evdev name each part stands for, and the codes of the parts
    that resolve. *)
Definition token_key_name (part : string) : string :=
  resolve_key_name (strip (lower (strip part))).

Definition key_names (key_string : string) : list string :=
  token_key_name <$> split_parts key_string.

Definition resolved_codes (key_string : string) : list Z :=
  omap ecodes_get (key_names key_string).

End Strings.

Section Events.

(** [event.code in ecodes.keys] *)
Variable in_keys : Z → bool.

(** [categorize(event)] for an [EV_KEY] event, and the read of
    [key_event.keystate] that follows it. *)
Definition categorize (event : InputEvent) : Run Z :=
  if in_keys (ev_code event) then
    if (ev_value event =? key_up) || (ev_value event =? key_hold)
       || (ev_value event =? key_down)
    then mret (ev_value event)
    else raise AttributeError
  else raise KeyError.

Definition _process_event (now : Q) (event : InputEvent) : Run unit :=
  if ev_type event =? ecodes.EV_KEY then
    keystate ← categorize event ;
    if keystate =? key_down then
      assign (λ self,
        set_pressed_keys (pressed_keys self ∪ {[ ev_code event ]}) self) ;;
      embed (_check_shortcut_combination now)
    else if keystate =? key_up then
      self ← read_self ;
      let was_combination_active := combination_active self in
      assign (λ self,
        set_pressed_keys (pressed_keys self ∖ {[ ev_code event ]}) self) ;;
      embed (_check_combination_release now was_combination_active)
    else mret tt
  else mret tt.

(** [for event in events: self._process_event(event)] *)
Fixpoint process_events (events : list (Q * InputEvent)) : Run unit :=
  match events with
  | [] => mret tt
  | (now, event) :: rest =>
      _process_event now event ;;
      process_events rest
  end.

(** The body of [for fd in ready_fds].  The handler of the [try] takes
    [OSError] only: an exception of [_process_event] leaves it. *)
Definition handle_ready (fd : Z) (result : ReadResult) : Run unit :=
  self ← read_self ;
  match device_fds self !! fd with
  | None => mret tt
  | Some device =>
      match result with
      | Some events => process_events events
      | None =>
          perform (StdoutLostConnection (name device)) ;;
          embed (_remove_device device)
      end
  end.

Fixpoint handle_all_ready (ready : list (Z * ReadResult)) : Run unit :=
  match ready with
  | [] => mret tt
  | (fd, result) :: rest =>
      handle_ready fd result ;;
      handle_all_ready rest
  end.

Definition event_loop_pass (ready : list (Z * ReadResult)) : Run unit :=
  self ← read_self ;
  match devices self with
  | [] => mret tt
  | _ => handle_all_ready ready
  end.

(** [while not self.stop_event.is_set()] along a finite schedule *)
Fixpoint while_not_stopped (schedule : list (list (Z * ReadResult)))
    : Run unit :=
  match schedule with
  | [] => mret tt
  | ready :: rest =>
      self ← read_self ;
      if stop_event self then mret tt
      else
        event_loop_pass ready ;;
        while_not_stopped rest
  end.

Definition _event_loop (schedule : list (list (Z * ReadResult))) : Run unit :=
  try_except (while_not_stopped schedule)
    (λ e, perform (StdoutErrorInEventLoop e)).

End Events.

End Runtime.

(** ** Instances of the run-time parameters *)

(** [str.upper] on texts made of ASCII and of U+017F, the long s, whose
    upper-casing is the letter S.  The long s is the bytes 197, 191. *)
Fixpoint upper_long_s (s : string) : string :=
  match s with
  | EmptyString => EmptyString
  | String c r =>
      match r with
      | String c' r' =>
          if (nat_of_ascii c =? 197)%nat && (nat_of_ascii c' =? 191)%nat
          then String "S" (upper_long_s r')
          else String (PyStr.upper_char c) (upper_long_s r)
      | EmptyString => String (PyStr.upper_char c) EmptyString
      end
  end.

(** UTF-8 refuses the surrogates U+D800..U+DFFF, which would be the byte
    237 followed by a byte from 160 to 191. *)
Fixpoint utf8_encodable (s : string) : bool :=
  match s with
  | EmptyString => true
  | String c r =>
      match r with
      | String c' _ =>
          if (nat_of_ascii c =? 237)%nat
             && (160 <=? nat_of_ascii c')%nat && (nat_of_ascii c' <=? 191)%nat
          then false
          else utf8_encodable r
      | EmptyString => true
      end
  end.


(** Every code point below 128. *)
Fixpoint is_ascii (s : string) : bool :=
  match s with
  | EmptyString => true
  | String c r => (nat_of_ascii c <? 128)%nat && is_ascii r
  end.

(** [event.code in ecodes.keys] for the excerpt of the Linux table. *)
Definition linux_in_keys (code : Z) : bool :=
  bool_decide (is_Some (linux_KEY code)).

(** The F12 engine after two quick taps: the second release fell into
    the release window and was lost, so the combination is still active
    with no key pressed. *)
Definition f12_stuck : GlobalShortcuts :=
  fst (process_events
         [(1000%Q, Down 88); ((10001 # 10)%Q, Up 88);
          ((100051 # 100)%Q, Down 88); ((100055 # 100)%Q, Up 88)]
         f12_running).

(** ** Vocabulary of the run-time properties *)

(** The exception, if any, that [categorize] or the read of [keystate]
    raises for an event. *)
Definition raised_by (in_keys : Z → bool) (event : InputEvent)
    : option Raised :=
  if ev_type event =? ecodes.EV_KEY then
    if in_keys (ev_code event) then
      if (ev_value event =? key_up) || (ev_value event =? key_hold)
         || (ev_value event =? key_down)
      then None
      else Some AttributeError
    else Some KeyError
  else None.

(** The events before the first one that raises, and its exception. *)
Fixpoint first_raise (in_keys : Z → bool) (events : list (Q * InputEvent))
    : option (list (Q * InputEvent) * Raised) :=
  match events with
  | [] => None
  | te :: rest =>
      match raised_by in_keys te.2 with
      | Some exc => Some ([], exc)
      | None =>
          match first_raise in_keys rest with
          | Some (before, exc) => Some (te :: before, exc)
          | None => None
          end
      end
  end.

(** Two string functions agree on ASCII texts. *)
Definition ascii_agree (f g : string → string) : Prop :=
  ∀ s, is_ascii s = true → f s = g s.

(** What a run of events comes to: the engine as embedded above, fed
    with the events before the first one that raises. *)
Definition run_events (in_keys : Z → bool) (events : list (Q * InputEvent))
    : Run unit := λ self,
  match first_raise in_keys events with
  | None =>
      {| outcome := inr tt;
         self_after := fst (process_events events self);
         performed := Eng <$> snd (process_events events self) |}
  | Some (before, exc) =>
      {| outcome := inl exc;
         self_after := fst (process_events before self);
         performed := Eng <$> snd (process_events before self) |}
  end.

(** Two strings parse alike: whenever both parses return, they return
    the same key set. *)
Definition parse_alike (parse : string → Run (gset Z)) (s s' : string)
    : Prop :=
  ∀ self self' K K',
    outcome (parse s self) = inr K →
    outcome (parse s' self') = inr K' →
    K = K'.

(** * Properties *)

(** ** The effect monad *)

Lemma Eff_bind_fst {A B} (m : Eff A) (k : A → Eff B) :
  fst (m ≫= k) = fst (k (fst m)).
Proof.
  unfold mbind, Eff_bind. destruct m as [a o1]. simpl.
  by destruct (k a).
Qed.

Lemma Eff_bind_snd {A B} (m : Eff A) (k : A → Eff B) :
  snd (m ≫= k) = snd m ++ snd (k (fst m)).
Proof.
  unfold mbind, Eff_bind. destruct m as [a o1]. simpl.
  by destruct (k a).
Qed.

Lemma activations_app (o1 o2 : list Effect) :
  activations (o1 ++ o2) = (activations o1 + activations o2)%nat.
Proof. unfold activations. by rewrite List.filter_app, length_app. Qed.


(** ** Time stamps *)

Lemma Qgt_bool_true (x y : Q) : Qgt_bool x y = true ↔ (y < x)%Q.
Proof.
  unfold Qgt_bool. rewrite negb_true_iff. split.
  - intros H. apply Qnot_le_lt. intros Hle.
    apply Qle_bool_iff in Hle. congruence.
  - intros H. destruct (Qle_bool x y) eqn:E; [|done].
    apply Qle_bool_iff in E. exfalso. by apply (Qlt_not_le y x).
Qed.

Lemma Qgt_bool_false (x y : Q) : Qgt_bool x y = false ↔ (x <= y)%Q.
Proof.
  unfold Qgt_bool. rewrite negb_false_iff. apply Qle_bool_iff.
Qed.

(** ** The alias table *)

Lemma KEY_ALIASES_keys_NoDup : NoDup (KEY_ALIASES_items.*1).
Proof. apply (bool_decide_unpack _). vm_compute. exact I. Qed.

(** ** The match predicate *)



(** ** One event *)

Lemma process_down (now : Q) (code : Z) (self : GlobalShortcuts) :
  _process_event now (Down code) self =
  _check_shortcut_combination now
    (set_pressed_keys (pressed_keys self ∪ {[ code ]}) self).
Proof. reflexivity. Qed.

Lemma process_up (now : Q) (code : Z) (self : GlobalShortcuts) :
  _process_event now (Up code) self =
  _check_combination_release now (combination_active self)
    (set_pressed_keys (pressed_keys self ∖ {[ code ]}) self).
Proof. reflexivity. Qed.

Lemma process_hold (now : Q) (code : Z) (self : GlobalShortcuts) :
  _process_event now (Hold code) self = (self, []).
Proof. reflexivity. Qed.

(** The three outcomes of [_check_shortcut_combination]. *)
Lemma check_shortcut_fire (t : Q) (self : GlobalShortcuts) :
  keys_match self = true →
  combination_active self = false →
  (debounce_time < t - last_trigger_time self)%Q →
  _check_shortcut_combination t self =
  (set_combination_active true (set_last_trigger_time t self),
   snd (_trigger_callback self)).
Proof.
  intros Hm Ha Hd. unfold _check_shortcut_combination.
  rewrite Hm, Ha. apply Qgt_bool_true in Hd. rewrite Hd. simpl.
  unfold _trigger_callback. simpl.
  by destruct (callback self).
Qed.

Lemma check_shortcut_quiet (t : Q) (self : GlobalShortcuts) :
  keys_match self = true →
  combination_active self = true ∨ (t - last_trigger_time self <= debounce_time)%Q →
  _check_shortcut_combination t self = (self, []).
Proof.
  intros Hm Hq. unfold _check_shortcut_combination. rewrite Hm.
  destruct Hq as [Ha | Hd].
  - by rewrite Ha.
  - apply Qgt_bool_false in Hd. rewrite Hd. by rewrite andb_false_r.
Qed.

Lemma check_shortcut_reset (t : Q) (self : GlobalShortcuts) :
  keys_match self = false →
  _check_shortcut_combination t self = (set_combination_active false self, []).
Proof. intros Hm. unfold _check_shortcut_combination. by rewrite Hm. Qed.

(** A press never starts a release thread and never moves the release
    time stamp. *)
Lemma check_shortcut_no_release (t : Q) (self : GlobalShortcuts) :
  deactivations (snd (_check_shortcut_combination t self)) = 0%nat
  ∧ last_release_time (fst (_check_shortcut_combination t self))
    = last_release_time self.
Proof.
  unfold _check_shortcut_combination, _trigger_callback.
  destruct (keys_match self); [|done].
  destruct (negb (combination_active self) && _); [|done].
  simpl. by destruct (callback self).
Qed.



(** A release never starts an activation thread and never moves the
    activation time stamp. *)
Lemma check_release_no_activation (t : Q) (was : bool) (self : GlobalShortcuts) :
  activations (snd (_check_combination_release t was self)) = 0%nat
  ∧ last_trigger_time (fst (_check_combination_release t was self))
    = last_trigger_time self.
Proof.
  unfold _check_combination_release, _trigger_release_callback.
  destruct (was && _); [|done].
  destruct (Qgt_bool _ _); [|done].
  simpl. by destruct (release_callback self).
Qed.

(** Only a key-down or a key-up of type [EV_KEY] changes anything. *)
Lemma process_event_cases (now : Q) (event : InputEvent) (self : GlobalShortcuts) :
  (event = Down (ev_code event)
   ∧ _process_event now event self =
     _check_shortcut_combination now
       (set_pressed_keys (pressed_keys self ∪ {[ ev_code event ]}) self))
  ∨ (event = Up (ev_code event)
     ∧ _process_event now event self =
       _check_combination_release now (combination_active self)
         (set_pressed_keys (pressed_keys self ∖ {[ ev_code event ]}) self))
  ∨ (¬ (ev_type event = ecodes.EV_KEY ∧ ev_value event = key_down)
     ∧ ¬ (ev_type event = ecodes.EV_KEY ∧ ev_value event = key_up)
     ∧ _process_event now event self = (self, [])).
Proof.
  destruct event as [ty c v]. unfold _process_event, Down, Up. simpl.
  destruct (Z.eqb_spec ty ecodes.EV_KEY) as [->|Hty].
  - destruct (Z.eqb_spec v key_down) as [->|Hd]; [by left|].
    destruct (Z.eqb_spec v key_up) as [->|Hu]; [by right; left|].
    right; right. repeat split; [intros [_ ?]|intros [_ ?]]; done.
  - right; right. repeat split; [intros [? _]|intros [? _]]; done.
Qed.

(** An event that starts an activation thread starts exactly one, stamps
    the activation time with the current clock and leaves the combination
    active. *)
Lemma activation_stamps (t : Q) (event : InputEvent) (self : GlobalShortcuts) :
  activations (snd (_process_event t event self)) ≠ 0%nat →
  activations (snd (_process_event t event self)) = 1%nat
  ∧ last_trigger_time (fst (_process_event t event self)) = t
  ∧ combination_active (fst (_process_event t event self)) = true
  ∧ ev_type event = ecodes.EV_KEY ∧ ev_value event = key_down.
Proof.
  destruct (process_event_cases t event self)
    as [[Hev ->] | [[Hev ->] | (_ & _ & ->)]]; [| |done].
  - rewrite Hev. simpl.
    unfold _check_shortcut_combination, _trigger_callback.
    destruct (keys_match _); [|done].
    destruct (negb _ && _); [|done].
    simpl. by destruct (callback self).
  - intros H. exfalso. apply H. apply check_release_no_activation.
Qed.

(** Inside the debounce window of the last activation no event starts an
    activation thread, and the activation time stamp stays put. *)
Lemma step_inside_window (t t1 : Q) (event : InputEvent) (self : GlobalShortcuts) :
  last_trigger_time self = t1 →
  (t - t1 <= debounce_time)%Q →
  activations (snd (_process_event t event self)) = 0%nat
  ∧ last_trigger_time (fst (_process_event t event self)) = t1.
Proof.
  intros Hl Hw.
  destruct (process_event_cases t event self)
    as [[_ ->] | [[_ ->] | (_ & _ & ->)]]; [| |done].
  - unfold _check_shortcut_combination. simpl.
    destruct (keys_match _); [|done].
    rewrite Hl. apply Qgt_bool_false in Hw. rewrite Hw.
    by rewrite andb_false_r.
  - destruct (check_release_no_activation t (combination_active self)
      (set_pressed_keys (pressed_keys self ∖ {[ ev_code event ]}) self))
      as [-> ->]. done.
Qed.

Lemma run_inside_window (t1 : Q) (events : list (Q * InputEvent)) :
  ∀ self : GlobalShortcuts,
  last_trigger_time self = t1 →
  Forall (λ te, (fst te - t1 <= debounce_time)%Q) events →
  activations (snd (process_events events self)) = 0%nat.
Proof.
  induction events as [|[t e] events IH]; intros self Hl Hall; [done|].
  apply Forall_cons in Hall as [Hw Hall]. simpl in Hw.
  cbn [process_events]. rewrite Eff_bind_snd, activations_app.
  destruct (step_inside_window t t1 e self Hl Hw) as [-> Hl'].
  by rewrite IH.
Qed.

(** **** C10 *)

(** C10. A release thread is started only by an [EV_KEY] event whose key
    state is up.  A Down event, in particular one that resets an active
    combination, starts no release thread and leaves the release time
    stamp as it was. *)
Theorem release_only_on_up (now : Q) (self : GlobalShortcuts) :
  (∀ event,
     deactivations (snd (_process_event now event self)) ≠ 0%nat →
     ev_type event = ecodes.EV_KEY ∧ ev_value event = key_up)
  ∧ (∀ code,
       deactivations (snd (_process_event now (Down code) self)) = 0%nat
       ∧ last_release_time (fst (_process_event now (Down code) self))
         = last_release_time self).
Proof.
  split.
  - intros event H.
    destruct (process_event_cases now event self)
      as [[_ Heq] | [[Hev _] | (_ & _ & Heq)]].
    + rewrite Heq in H. exfalso. apply H. apply check_shortcut_no_release.
    + by rewrite Hev.
    + by rewrite Heq in H.
  - intros code. rewrite process_down.
    destruct (check_shortcut_no_release now
      (set_pressed_keys (pressed_keys self ∪ {[ code ]}) self)) as [H1 H2].
    split; [exact H1 | exact H2].
Qed.

(** The Down event of Shift drives the active F12 engine to inactive. *)
Lemma release_only_on_up_witness :
  combination_active f12_active = true
  ∧ combination_active (fst (_process_event 1001 (Down 42) f12_active)) = false
  ∧ deactivations (snd (_process_event 1001 (Down 42) f12_active)) = 0%nat
  ∧ last_release_time (fst (_process_event 1001 (Down 42) f12_active))
    = last_release_time f12_active.
Proof.
  split; [reflexivity|]. split; [reflexivity|].
  apply (proj2 (release_only_on_up 1001 f12_active) 42).
Defined.

(** **** C2 *)



(** **** C3 *)

(** C3. A Down event processed while the combination is active, or no
    later than the debounce window after the last activation stamp, starts
    no activation thread.  Hence, once an event has started the activation
    callback at time [t1], a run of further events that are all read
    within the window of [t1] starts no other: the whole run starts
    exactly one.  A key-repeat (hold) event changes nothing at all. *)
Theorem activation_debounce :
  (∀ now code self,
     combination_active self = true
     ∨ (now - last_trigger_time self <= debounce_time)%Q →
     activations (snd (_process_event now (Down code) self)) = 0%nat)
  ∧ (∀ t1 e1 events self,
       activations (snd (_process_event t1 e1 self)) ≠ 0%nat →
       Forall (λ te, (fst te - t1 <= debounce_time)%Q) events →
       activations (snd (process_events ((t1, e1) :: events) self)) = 1%nat)
  ∧ (∀ now code self, _process_event now (Hold code) self = (self, [])).
Proof.
  split; [|split].
  - intros now code self Hq. rewrite process_down.
    destruct (keys_match
      (set_pressed_keys (pressed_keys self ∪ {[ code ]}) self)) eqn:Hm.
    + by rewrite check_shortcut_quiet.
    + by rewrite check_shortcut_reset.
  - intros t1 e1 events self Hfire Hall.
    destruct (activation_stamps t1 e1 self Hfire) as (Hone & Hstamp & _).
    cbn [process_events]. rewrite Eff_bind_snd, activations_app, Hone.
    by rewrite (run_inside_window t1 events _ Hstamp Hall).
  - intros. apply process_hold.
Qed.

(** F12 pressed, released and pressed again within 200 ms: one activation.
    F12 pressed again while still active: none. *)
Lemma activation_debounce_witness :
  activations
    (snd (process_events
            [(1000%Q, Down 88); ((10001 # 10)%Q, Up 88);
             ((10002 # 10)%Q, Down 88)] f12_running)) = 1%nat
  ∧ activations (snd (_process_event 5000 (Down 88) f12_active)) = 0%nat.
Proof.
  split.
  - apply (proj1 (proj2 activation_debounce)).
    + vm_compute. discriminate.
    + repeat constructor; vm_compute; discriminate.
  - apply (proj1 activation_debounce). left. reflexivity.
Defined.

(** ** stop *)

Lemma remove_first_head (device : InputDevice) (l : list InputDevice) :
  remove_first device (device :: l) = l.
Proof. simpl. by rewrite decide_True. Qed.

(** Removing the devices of the copy one by one empties the list. *)
Lemma remove_devices_all (copy : list InputDevice) :
  ∀ self : GlobalShortcuts,
  devices self = copy →
  devices (fst (remove_devices copy self)) = [].
Proof.
  induction copy as [|d copy IH]; intros self Hd; [done|].
  cbn [remove_devices]. rewrite Eff_bind_fst. apply IH.
  simpl. rewrite Hd. apply remove_first_head.
Qed.

(** Closing devices touches nothing but the device list and table. *)
Lemma remove_devices_frame (copy : list InputDevice) :
  ∀ self : GlobalShortcuts,
  let self' := fst (remove_devices copy self) in
  combination_active self' = combination_active self
  ∧ pressed_keys self' = pressed_keys self
  ∧ is_running self' = is_running self
  ∧ stop_event self' = stop_event self
  ∧ last_trigger_time self' = last_trigger_time self
  ∧ last_release_time self' = last_release_time self
  ∧ target_keys self' = target_keys self.
Proof.
  induction copy as [|d copy IH]; intros self; [done|].
  cbn [remove_devices]. cbv zeta. rewrite Eff_bind_fst.
  apply (IH (fst (_remove_device d self))).
Qed.

(** [stop] on an engine that is not running is the identity. *)
Lemma stop_not_running (self : GlobalShortcuts) :
  is_running self = false → stop self = (self, []).
Proof. intros H. unfold stop. by rewrite H. Qed.

(** [stop] on a running engine: the stop signal is set, every device is
    removed, the engine is marked stopped and the pressed set cleared. *)
Lemma stop_running (self : GlobalShortcuts) :
  is_running self = true →
  is_running (fst (stop self)) = false
  ∧ stop_event (fst (stop self)) = true
  ∧ devices (fst (stop self)) = []
  ∧ pressed_keys (fst (stop self)) = ∅.
Proof.
  intros H. unfold stop. rewrite H. cbn [negb]. rewrite Eff_bind_fst.
  simpl. repeat split.
  - apply (remove_devices_frame (devices self) (set_stop_event true self)).
  - by apply remove_devices_all.
Qed.

(** [stop] never writes [combination_active]. *)
Lemma stop_keeps_combination_active (self : GlobalShortcuts) :
  combination_active (fst (stop self)) = combination_active self.
Proof.
  unfold stop. destruct (is_running self); [|done].
  cbn [negb]. rewrite Eff_bind_fst. simpl.
  apply (remove_devices_frame (devices self) (set_stop_event true self)).
Qed.

(** **** C1 *)

(** C1. The claim: after [stop()] the pressed set is empty and the
    combination state is inactive, and [stop()] on a stopped engine
    changes nothing.  The code clears [pressed_keys] but leaves
    [combination_active] as it was.  Evaluated on the F12 engine stopped
    while F12 is held: the pressed set is emptied, the flag stays true,
    the second [stop()] is the identity, and after a restart the next
    press of F12 starts no callback while its release starts the release
    callback. *)
Theorem stop_leaves_combination_active :
  let stopped := fst (stop f12_active) in
  let restarted := snd (fst (start one_keyboard stopped)) in
  is_running f12_active = true
  ∧ combination_active f12_active = true
  ∧ is_running stopped = false
  ∧ pressed_keys stopped = ∅
  ∧ combination_active stopped = true
  ∧ stop stopped = (stopped, [])
  ∧ is_running restarted = true
  ∧ snd (_process_event 2000 (Down 88) restarted) = []
  ∧ snd (process_events [(2000%Q, Down 88); (2001%Q, Up 88)] restarted)
    = [Stdout (MsgReleased "<f12>"); StartReleaseThread 2%nat].
Proof. vm_compute. repeat split. Qed.

(** ** Discovery *)


Lemma filter_path_present (p : string) (all : list InputDevice) :
  (∃ d, d ∈ all ∧ path d = p) →
  List.filter (λ dev, bool_decide (path dev = p)) all ≠ [].
Proof.
  intros (d & Hin & Hp) Hnil.
  assert (Hf : In d (List.filter (λ dev, bool_decide (path dev = p)) all)).
  { apply filter_In. split; [by apply list_elem_of_In|].
    by apply bool_decide_eq_true_2. }
  rewrite Hnil in Hf. destruct Hf.
Qed.


(** The last step of [_discover_keyboards] only prints. *)
Lemma discover_keyboards_devices (all : list InputDevice) (self : GlobalShortcuts) :
  devices (fst (_discover_keyboards (Some all) self)) =
  devices (fst (discover_loop (fst (select_candidates all (reset_devices self)))
                  (reset_devices self))).
Proof.
  unfold _discover_keyboards. rewrite Eff_bind_fst.
  fold (reset_devices self). rewrite Eff_bind_fst.
  set (found := fst (discover_loop _ _)).
  by destruct (devices found) eqn:E.
Qed.


(** **** C5 *)






(** ** Parsing *)

Section ParsingFacts.

Variable ecodes_get : string → option Z.

Lemma string_to_keycode_fst (key_string : string) :
  fst (_string_to_keycode ecodes_get key_string) =
  ecodes_get (resolve_key_name (PyStr.strip (PyStr.lower key_string))).
Proof.
  unfold _string_to_keycode. by destruct (ecodes_get _).
Qed.

Lemma resolved_codes_key_names (key_string : string) :
  resolved_codes ecodes_get key_string =
  omap ecodes_get (key_names key_string).
Proof.
  unfold resolved_codes, key_names.
  induction (split_parts key_string) as [|part parts IH]; [done|].
  cbn [omap list_omap fmap list_fmap].
  rewrite string_to_keycode_fst. fold (token_key_name part).
  by rewrite <- IH.
Qed.

(** The loop adds exactly the codes of the parts that resolve. *)
Lemma parse_loop_fst (key_string : string) (parts : list string) :
  ∀ keys : gset Z,
  fst (parse_loop ecodes_get key_string parts keys) =
  keys ∪ list_to_set
    (omap (λ part, fst (_string_to_keycode ecodes_get (PyStr.strip part)))
          parts).
Proof.
  induction parts as [|part parts IH]; intros keys.
  - simpl. by rewrite (right_id_L ∅ (∪)).
  - cbn [parse_loop omap list_omap]. rewrite Eff_bind_fst.
    destruct (fst (_string_to_keycode ecodes_get (PyStr.strip part)))
      as [code|].
    + rewrite IH. cbn [list_to_set]. by rewrite (assoc_L (∪)).
    + rewrite Eff_bind_fst. by rewrite IH.
Qed.


Lemma list_to_set_empty_nil (l : list Z) :
  (list_to_set l : gset Z) = ∅ ↔ l = [].
Proof.
  split; [|by intros ->].
  destruct l as [|x l]; [done|]. cbn [list_to_set]. set_solver.
Qed.

(** The parsed set: the resolved codes, or F12 alone when there are
    none. *)
Lemma parse_key_combination_fst (key_string : string) :
  fst (_parse_key_combination ecodes_get key_string) =
  match resolved_codes ecodes_get key_string with
  | [] => {[ ecodes.KEY_F12 ]}
  | codes => list_to_set codes
  end.
Proof.
  unfold _parse_key_combination. rewrite Eff_bind_fst, parse_loop_fst.
  fold (resolved_codes ecodes_get key_string).
  rewrite (left_id_L ∅ (∪)).
  destruct (resolved_codes ecodes_get key_string) as [|c cs] eqn:E.
  - simpl. set_solver.
  - rewrite decide_False; [done|].
    intros H. by apply list_to_set_empty_nil in H.
Qed.


(** **** C7 *)


End ParsingFacts.


(** ** Casing and aliases *)

Lemma lower_upper_char (c : ascii) :
  PyStr.lower_char (PyStr.upper_char c) = PyStr.lower_char c.
Proof. destruct c as [[] [] [] [] [] [] [] []]; reflexivity. Qed.

Lemma lower_lower_char (c : ascii) :
  PyStr.lower_char (PyStr.lower_char c) = PyStr.lower_char c.
Proof. destruct c as [[] [] [] [] [] [] [] []]; reflexivity. Qed.

Lemma lower_upper (s : string) : PyStr.lower (PyStr.upper s) = PyStr.lower s.
Proof.
  induction s as [|c s IH]; [done|].
  cbn [PyStr.lower PyStr.upper PyStr.map_chars].
  rewrite lower_upper_char. f_equal. exact IH.
Qed.

Lemma lower_lower (s : string) : PyStr.lower (PyStr.lower s) = PyStr.lower s.
Proof.
  induction s as [|c s IH]; [done|].
  cbn [PyStr.lower PyStr.map_chars].
  rewrite lower_lower_char. f_equal. exact IH.
Qed.

(** The parts depend on the lower-cased input only. *)
Lemma split_parts_lower (s s' : string) :
  PyStr.lower s = PyStr.lower s' → split_parts s = split_parts s'.
Proof. intros H. unfold split_parts. by rewrite H. Qed.

(** The parsed set depends on the evdev names of the parts only. *)
Lemma parse_by_key_names (ecodes_get : string → option Z) (s s' : string) :
  key_names s = key_names s' →
  fst (_parse_key_combination ecodes_get s) =
  fst (_parse_key_combination ecodes_get s').
Proof.
  intros H. rewrite !parse_key_combination_fst, !resolved_codes_key_names.
  by rewrite H.
Qed.

(** The keys of the alias table are lower-case and carry no blanks, so
    the normalisation of [_string_to_keycode] leaves them alone. *)
Lemma alias_keys_normal :
  Forall (λ kv : string * string, PyStr.strip (PyStr.lower kv.1) = kv.1)
         KEY_ALIASES_items.
Proof. apply (bool_decide_unpack _). vm_compute. exact I. Qed.

Lemma alias_key_normal (a key_name : string) :
  KEY_ALIASES !! a = Some key_name → PyStr.strip (PyStr.lower a) = a.
Proof.
  intros H. apply elem_of_list_to_map_2 in H.
  by apply (proj1 (Forall_forall _ _) alias_keys_normal (a, key_name)).
Qed.

(** * Further properties of the code *)

#[local] Set Warnings "-clear-no-such-hyp".

(** ** Computations in [Out] *)

Lemma Out_bind_fst {E A B} (m : Out E A) (k : A → Out E B) :
  fst (m ≫= k) = fst (k (fst m)).
Proof.
  unfold mbind, Out_bind. destruct m as [a o1]. simpl.
  by destruct (k a).
Qed.

Lemma Out_bind_snd {E A B} (m : Out E A) (k : A → Out E B) :
  snd (m ≫= k) = snd m ++ snd (k (fst m)).
Proof.
  unfold mbind, Out_bind. destruct m as [a o1]. simpl.
  by destruct (k a).
Qed.

(** ** Characters and stripping *)

Lemma is_space_lower_char (c : ascii) :
  PyStr.is_space (PyStr.lower_char c) = PyStr.is_space c.
Proof. destruct c as [[] [] [] [] [] [] [] []]; reflexivity. Qed.

Lemma eqb_lower_char_blank (c : ascii) :
  Ascii.eqb (PyStr.lower_char c) " " = Ascii.eqb c " ".
Proof. destruct c as [[] [] [] [] [] [] [] []]; reflexivity. Qed.

Lemma blank_is_space (c : ascii) :
  Ascii.eqb c " " = true → PyStr.is_space c = true.
Proof. intros H. apply Ascii.eqb_eq in H. by subst c. Qed.

Lemma lower_lstrip (s : string) :
  PyStr.lower (PyStr.lstrip s) = PyStr.lstrip (PyStr.lower s).
Proof.
  induction s as [|c s IH]; [done|].
  cbn [PyStr.lstrip PyStr.lower PyStr.map_chars].
  rewrite is_space_lower_char.
  destruct (PyStr.is_space c); [exact IH | done].
Qed.

Lemma lower_rstrip (s : string) :
  PyStr.lower (PyStr.rstrip s) = PyStr.rstrip (PyStr.lower s).
Proof.
  induction s as [|c s IH]; [done|].
  cbn [PyStr.rstrip PyStr.lower PyStr.map_chars].
  fold (PyStr.lower s). rewrite <- IH, is_space_lower_char.
  destruct (PyStr.rstrip s) as [|d r]; simpl.
  - by destruct (PyStr.is_space c).
  - done.
Qed.

Lemma lower_strip (s : string) :
  PyStr.lower (PyStr.strip s) = PyStr.strip (PyStr.lower s).
Proof. unfold PyStr.strip. by rewrite lower_rstrip, lower_lstrip. Qed.

Lemma lower_remove_blank (s : string) :
  PyStr.lower (PyStr.remove_char " " s) = PyStr.remove_char " " (PyStr.lower s).
Proof.
  induction s as [|c s IH]; [done|].
  cbn [PyStr.remove_char PyStr.lower PyStr.map_chars].
  rewrite eqb_lower_char_blank.
  destruct (Ascii.eqb c " "); [exact IH|].
  cbn [PyStr.lower PyStr.map_chars]. f_equal. exact IH.
Qed.

Lemma lstrip_head_ok (s : string) : head_ok (PyStr.lstrip s).
Proof.
  induction s as [|c s IH]; [done|]. simpl.
  by destruct (PyStr.is_space c) eqn:E.
Qed.

Lemma lstrip_id (s : string) : head_ok s → PyStr.lstrip s = s.
Proof. destruct s as [|c s]; [done|]. simpl. by intros ->. Qed.

Lemma rstrip_cons (c : ascii) (s : string) :
  PyStr.is_space c = false →
  PyStr.rstrip (String c s) = String c (PyStr.rstrip s).
Proof.
  intros Hc. cbn [PyStr.rstrip]. rewrite Hc.
  by destruct (PyStr.rstrip s).
Qed.

Lemma rstrip_head_ok (s : string) : head_ok s → head_ok (PyStr.rstrip s).
Proof.
  destruct s as [|c s]; [done|]. intros Hc. simpl in Hc.
  by rewrite rstrip_cons.
Qed.

Lemma rstrip_last_ok (s : string) : last_ok (PyStr.rstrip s).
Proof.
  induction s as [|c s IH]; [done|]. cbn [PyStr.rstrip].
  destruct (PyStr.rstrip s) as [|d r] eqn:E.
  - by destruct (PyStr.is_space c) eqn:Ec.
  - exact IH.
Qed.

Lemma rstrip_id (s : string) : last_ok s → PyStr.rstrip s = s.
Proof.
  induction s as [|c s IH]; [done|]. intros H. cbn [PyStr.rstrip].
  destruct s as [|d r].
  - simpl in *. by rewrite H.
  - rewrite IH by exact H. done.
Qed.

Lemma strip_ok (s : string) :
  head_ok (PyStr.strip s) ∧ last_ok (PyStr.strip s).
Proof.
  unfold PyStr.strip. split.
  - apply rstrip_head_ok, lstrip_head_ok.
  - apply rstrip_last_ok.
Qed.

Lemma strip_id (s : string) : head_ok s → last_ok s → PyStr.strip s = s.
Proof.
  intros Hh Hl. unfold PyStr.strip. by rewrite (lstrip_id s Hh), rstrip_id.
Qed.

Lemma strip_strip (s : string) : PyStr.strip (PyStr.strip s) = PyStr.strip s.
Proof. apply strip_id; apply strip_ok. Qed.

Lemma remove_char_idem (c : ascii) (s : string) :
  PyStr.remove_char c (PyStr.remove_char c s) = PyStr.remove_char c s.
Proof.
  induction s as [|d s IH]; [done|]. cbn [PyStr.remove_char].
  destruct (Ascii.eqb d c) eqn:E; [exact IH|].
  cbn [PyStr.remove_char]. rewrite E. f_equal. exact IH.
Qed.

Lemma remove_blank_head_ok (s : string) :
  head_ok s → last_ok s → head_ok (PyStr.remove_char " " s).
Proof.
  induction s as [|c s IH]; [done|]. intros Hh Hl. cbn [PyStr.remove_char].
  simpl in Hh.
  destruct (Ascii.eqb c " ") eqn:E; [|done].
  apply blank_is_space in E. congruence.
Qed.

Lemma remove_blank_nonempty (s : string) :
  last_ok s → s ≠ EmptyString → PyStr.remove_char " " s ≠ EmptyString.
Proof.
  induction s as [|c s IH]; [done|]. intros Hl _. cbn [PyStr.remove_char].
  destruct (Ascii.eqb c " ") eqn:E; [|done].
  destruct s as [|d r].
  - simpl in Hl. apply blank_is_space in E. congruence.
  - apply IH; [exact Hl | done].
Qed.

Lemma remove_blank_last_ok (s : string) :
  last_ok s → last_ok (PyStr.remove_char " " s).
Proof.
  induction s as [|c s IH]; [done|]. intros Hl. cbn [PyStr.remove_char].
  destruct s as [|d r].
  - simpl in *. destruct (Ascii.eqb c " "); [done|]. exact Hl.
  - specialize (IH Hl).
    destruct (Ascii.eqb c " "); [exact IH|].
    pose proof (remove_blank_nonempty (String d r) Hl) as Hne.
    destruct (PyStr.remove_char " " (String d r)) as [|e t].
    + by exfalso; apply Hne.
    + exact IH.
Qed.

(** ** normalize_key_name *)

(** X1. [normalize_key_name] is idempotent, and its result is in normal
    form for each of its three steps: lower-casing, stripping and the
    removal of blanks leave it as it is. *)
Theorem normalize_key_name_idempotent (key_name : string) :
  normalize_key_name (normalize_key_name key_name) = normalize_key_name key_name
  ∧ PyStr.lower (normalize_key_name key_name) = normalize_key_name key_name
  ∧ PyStr.strip (normalize_key_name key_name) = normalize_key_name key_name
  ∧ PyStr.remove_char " " (normalize_key_name key_name)
    = normalize_key_name key_name.
Proof.
  assert (Hlow : PyStr.lower (normalize_key_name key_name)
                 = normalize_key_name key_name).
  { unfold normalize_key_name.
    by rewrite lower_remove_blank, lower_strip, lower_lower. }
  assert (Hstrip : PyStr.strip (normalize_key_name key_name)
                   = normalize_key_name key_name).
  { unfold normalize_key_name.
    destruct (strip_ok (PyStr.lower key_name)) as [Hh Hl].
    apply strip_id.
    - by apply remove_blank_head_ok.
    - by apply remove_blank_last_ok. }
  assert (Hrm : PyStr.remove_char " " (normalize_key_name key_name)
                = normalize_key_name key_name).
  { unfold normalize_key_name. apply remove_char_idem. }
  split; [|by repeat split].
  unfold normalize_key_name at 1. by rewrite Hlow, Hstrip, Hrm.
Qed.

(** ** Key names and key codes *)

Lemma occurs_startswith (old s : string) :
  occurs old s = false → PyStr.startswith old s = false.
Proof.
  destruct s as [|c r]; [done|]. cbn [occurs].
  intros H. by apply orb_false_iff in H as [H _].
Qed.

(** A string without an occurrence of the pattern is left alone. *)
Lemma py_replace_absent (old new s : string) :
  occurs old s = false → py_replace old new s = s.
Proof.
  unfold py_replace. induction s as [|c r IH]; [done|].
  cbn [occurs replace_from]. intros H.
  apply orb_false_iff in H as [Hp Ho]. rewrite Hp. f_equal. by apply IH.
Qed.

Lemma py_replace_KEY_prefix (rest : string) :
  occurs "KEY_" rest = false →
  py_replace "KEY_" "" (String.append "KEY_" rest) = rest.
Proof.
  intros H. unfold py_replace. simpl.
  destruct rest as [|c r]; [done|].
  change (py_replace "KEY_" "" (String c r) = String c r).
  by apply py_replace_absent.
Qed.

(** No alias is spelled with the prefix [key_]. *)
Lemma alias_keys_unprefixed :
  Forall (λ kv : string * string, PyStr.startswith "key_" kv.1 = false)
         KEY_ALIASES_items.
Proof. apply (bool_decide_unpack _). vm_compute. exact I. Qed.

Lemma alias_of_prefixed (n : string) :
  KEY_ALIASES !! String.append "key_" n = None.
Proof.
  destruct (KEY_ALIASES !! String.append "key_" n) as [v|] eqn:E; [|done].
  apply elem_of_list_to_map_2 in E.
  pose proof (proj1 (Forall_forall _ _) alias_keys_unprefixed _ E) as H.
  cbv [PyStr.startswith fst] in H. simpl in H. by destruct n.
Qed.

Lemma strip_prefixed (n : string) :
  PyStr.strip n = n →
  PyStr.strip (String.append "key_" n) = String.append "key_" n.
Proof.
  intros Hn.
  change (String.append "key_" n)
    with (String "k" (String "e" (String "y" (String "_" n)))).
  unfold PyStr.strip. rewrite lstrip_id by reflexivity.
  rewrite !rstrip_cons by reflexivity. do 4 f_equal.
  destruct (strip_ok n) as [_ Hl]. rewrite Hn in Hl. by apply rstrip_id.
Qed.

Lemma upper_prefixed (n : string) :
  PyStr.upper (String.append "key_" n) = String.append "KEY_" (PyStr.upper n).
Proof. reflexivity. Qed.

Lemma startswith_KEY_prefix (rest : string) :
  PyStr.startswith "KEY_" (String.append "KEY_" rest) = true.
Proof. cbv [PyStr.startswith]. simpl. by destruct rest. Qed.

Section NamesFacts.

Variable ecodes_get : string → option Z.
Variable KEY : Z → option string.

(** X2. Direct evdev names: a token that is no alias and does not itself
    start with [KEY_] resolves to the evdev name made of [KEY_] and its
    upper-casing, and writing the token with the prefix [key_] gives the
    same key code. *)
Theorem evdev_name_prefix_optional (token : string) :
  let n := PyStr.strip (PyStr.lower token) in
  KEY_ALIASES !! n = None →
  PyStr.startswith "KEY_" (PyStr.upper n) = false →
  fst (_string_to_keycode ecodes_get token)
    = ecodes_get (String.append "KEY_" (PyStr.upper n))
  ∧ fst (_string_to_keycode ecodes_get (String.append "key_" n))
    = fst (_string_to_keycode ecodes_get token).
Proof.
  intros n Hal Hpre.
  assert (H1 : fst (_string_to_keycode ecodes_get token)
               = ecodes_get (String.append "KEY_" (PyStr.upper n))).
  { rewrite string_to_keycode_fst. fold n.
    unfold resolve_key_name. by rewrite Hal, Hpre. }
  split; [exact H1|]. rewrite H1, string_to_keycode_fst.
  assert (Hn : PyStr.lower n = n).
  { unfold n. by rewrite lower_strip, lower_lower. }
  assert (Hlow : PyStr.lower (String.append "key_" n) = String.append "key_" n).
  { change (String.append "key_" n)
      with (String "k" (String "e" (String "y" (String "_" n)))).
    unfold PyStr.lower in *. cbn [PyStr.map_chars]. by rewrite Hn. }
  rewrite Hlow, strip_prefixed by apply strip_strip.
  unfold resolve_key_name.
  by rewrite alias_of_prefixed, upper_prefixed, startswith_KEY_prefix.
Qed.

(** X3. Name and code round trip: when [ecodes.KEY] names a code
    [KEY_] + [rest], where [rest] is upper-case, free of blanks and of a
    further [KEY_], and the lower-cased [rest] is no alias (or an alias of
    this very name), then [_keycode_to_name] shows [rest] and
    [_string_to_keycode] reads [rest] back as the code, provided the two
    evdev tables agree on the name. *)
Theorem keycode_name_round_trip (keycode : Z) (rest : string) :
  KEY keycode = Some (String.append "KEY_" rest) →
  occurs "KEY_" rest = false →
  PyStr.upper (PyStr.strip (PyStr.lower rest)) = rest →
  (KEY_ALIASES !! PyStr.strip (PyStr.lower rest) = None
   ∨ KEY_ALIASES !! PyStr.strip (PyStr.lower rest)
     = Some (String.append "KEY_" rest)) →
  ecodes_get (String.append "KEY_" rest) = Some keycode →
  _keycode_to_name KEY keycode = rest
  ∧ fst (_string_to_keycode ecodes_get (_keycode_to_name KEY keycode))
    = Some keycode.
Proof.
  intros HK Hocc Hup Hal Hget.
  assert (Hname : _keycode_to_name KEY keycode = rest).
  { unfold _keycode_to_name. rewrite HK. by apply py_replace_KEY_prefix. }
  split; [exact Hname|]. rewrite Hname, string_to_keycode_fst.
  unfold resolve_key_name. destruct Hal as [-> | ->]; [|exact Hget].
  by rewrite Hup, (occurs_startswith _ _ Hocc).
Qed.

End NamesFacts.

(** The token "Comma" and its spelling "key_comma". *)
Lemma evdev_name_prefix_optional_witness :
  fst (_string_to_keycode linux_ecodes_get "Comma") = Some 51
  ∧ fst (_string_to_keycode linux_ecodes_get "key_comma")
    = fst (_string_to_keycode linux_ecodes_get "Comma").
Proof.
  destruct (evdev_name_prefix_optional linux_ecodes_get "Comma") as [H1 H2];
    [reflexivity | reflexivity |].
  split; [rewrite H1; reflexivity | exact H2].
Defined.

(** Code 56 is shown as "LEFTALT" and read back as 56. *)
Lemma keycode_name_round_trip_witness :
  _keycode_to_name linux_KEY 56 = "LEFTALT"
  ∧ fst (_string_to_keycode linux_ecodes_get (_keycode_to_name linux_KEY 56))
    = Some 56.
Proof.
  apply (keycode_name_round_trip linux_ecodes_get linux_KEY 56 "LEFTALT").
  - reflexivity.
  - reflexivity.
  - reflexivity.
  - left. reflexivity.
  - reflexivity.
Defined.

(** ** The device utilities *)

Lemma available_loop_fst (devs : list InputDevice) :
  ∀ keyboards,
  fst (available_loop devs keyboards) =
  keyboards ++ (keyboard_entry <$> List.filter accessible_keyboard devs).
Proof.
  induction devs as [|d devs IH]; intros keyboards.
  - simpl. by rewrite app_nil_r.
  - cbn [available_loop List.filter].
    unfold accessible_keyboard at 1, _is_keyboard_device.
    destruct (capabilities d !! ecodes.EV_KEY) as [keys|].
    + destruct (existsb _ _); cbn [andb].
      * destruct (grabbable d); rewrite Out_bind_fst, IH.
        -- cbn [fmap list_fmap]. by rewrite <- app_assoc.
        -- done.
      * by rewrite Out_bind_fst, IH.
    + by rewrite Out_bind_fst, IH.
Qed.

Lemma available_loop_snd (devs : list InputDevice) :
  ∀ keyboards,
  snd (available_loop devs keyboards) = (λ d, UtilClose (path d)) <$> devs.
Proof.
  induction devs as [|d devs IH]; intros keyboards; [done|].
  cbn [available_loop fmap list_fmap].
  destruct (capabilities d !! ecodes.EV_KEY) as [keys|].
  - destruct (existsb _ _); [destruct (grabbable d)|];
      rewrite Out_bind_snd, IH; done.
  - by rewrite Out_bind_snd, IH.
Qed.

(** X4. [get_available_keyboards] lists, in enumeration order, exactly
    the devices that pass the keyboard test and the grab probe, and it
    closes every enumerated device exactly once, listed or not.  When
    the enumeration raises it reports the error and returns the empty
    list. *)
Theorem get_available_keyboards_spec :
  (∀ devs,
     fst (get_available_keyboards (Some devs))
       = keyboard_entry <$> List.filter accessible_keyboard devs
     ∧ snd (get_available_keyboards (Some devs))
       = (λ d, UtilClose (path d)) <$> devs)
  ∧ get_available_keyboards None = ([], [UtilStdout MsgErrorGettingKeyboards]).
Proof.
  split; [|done]. intros devs. unfold get_available_keyboards.
  by rewrite available_loop_fst, available_loop_snd.
Qed.

Lemma is_selected_none (self : GlobalShortcuts) (d : InputDevice) :
  selected_path self = None → is_selected self d = false.
Proof. intros H. unfold is_selected. by rewrite H. Qed.

(** Without a break, the discovery loop appends the accessible keyboards. *)
Lemma discover_loop_unselected (cands : list InputDevice) :
  ∀ self : GlobalShortcuts,
  (∀ d, d ∈ cands → is_selected self d = false) →
  devices (fst (discover_loop cands self))
  = devices self ++ List.filter accessible_keyboard cands.
Proof.
  induction cands as [|d cs IH]; intros self Hsel.
  - simpl. by rewrite app_nil_r.
  - cbn [discover_loop List.filter]. unfold accessible_keyboard at 1.
    assert (Hcs : ∀ s', (∀ d', is_selected s' d' = is_selected self d') →
              ∀ d', d' ∈ cs → is_selected s' d' = false).
    { intros s' Heq d' Hd'. rewrite Heq. apply Hsel. by right. }
    destruct (_is_keyboard_device d); cbn [andb]; [|by apply IH, Hcs].
    destruct (grabbable d).
    + rewrite Eff_bind_fst.
      change (is_selected _ d) with (is_selected self d).
      rewrite (Hsel d) by (by left).
      rewrite IH by (by apply Hcs). simpl. by rewrite <- app_assoc.
    + rewrite !Eff_bind_fst. by apply IH, Hcs.
Qed.

(** X5. With no device path selected, discovery keeps the devices that
    [get_available_keyboards] lists, in the same order (compared by
    path). *)
Theorem discovery_agrees_with_listing
    (all : list InputDevice) (self : GlobalShortcuts) :
  selected_path self = None →
  path <$> devices (fst (_discover_keyboards (Some all) self))
  = kb_path <$> fst (get_available_keyboards (Some all)).
Proof.
  intros Hsel. rewrite discover_keyboards_devices.
  unfold select_candidates.
  change (selected_path (reset_devices self)) with (selected_path self).
  rewrite Hsel. cbn [fst mret Eff_ret].
  rewrite discover_loop_unselected
    by (intros d _; by apply is_selected_none).
  unfold get_available_keyboards. rewrite available_loop_fst.
  cbn [app devices reset_devices set_devices set_device_fds].
  by rewrite <- list_fmap_compose.
Qed.

(** The USB keyboard is found by both. *)
Lemma discovery_agrees_with_listing_witness :
  path <$> devices (fst (_discover_keyboards (Some two_keyboards) f12_idle))
  = kb_path <$> fst (get_available_keyboards (Some two_keyboards))
  ∧ kb_path <$> fst (get_available_keyboards (Some two_keyboards))
    = ["/dev/input/event0"].
Proof.
  split; [|reflexivity].
  apply (discovery_agrees_with_listing two_keyboards f12_idle). reflexivity.
Defined.

Lemma access_loop_spec (devs : list InputDevice) :
  ∀ results,
  accessible_devices (fst (access_loop devs results))
    = accessible_devices results
      ++ (device_entry <$>
            List.filter (λ d, has_ev_key d && grabbable d) devs)
  ∧ inaccessible_devices (fst (access_loop devs results))
    = inaccessible_devices results
      ++ (device_entry <$>
            List.filter (λ d, has_ev_key d && negb (grabbable d)) devs)
  ∧ total_devices (fst (access_loop devs results)) = total_devices results
  ∧ snd (access_loop devs results)
    = (λ d, UtilClose (path d)) <$> List.filter has_ev_key devs.
Proof.
  induction devs as [|d devs IH]; intros results.
  - simpl. by rewrite !app_nil_r.
  - cbn [access_loop List.filter].
    destruct (capabilities d !! ecodes.EV_KEY) as [keys|] eqn:Ecap.
    + assert (Hk : has_ev_key d = true).
      { unfold has_ev_key. rewrite Ecap. apply bool_decide_eq_true_2. eauto. }
      rewrite Hk. cbn [andb].
      rewrite Out_bind_fst, Out_bind_snd. cbn [fst snd say].
      destruct (grabbable d); cbn [negb];
        match goal with
        | |- context [access_loop devs ?R] =>
            destruct (IH R) as (Ha & Hi & Ht & Hc)
        end;
        rewrite Ha, Hi, Ht, Hc;
        cbn [fmap list_fmap accessible_devices inaccessible_devices
             total_devices app];
        rewrite <- ?app_assoc; done.
    + assert (Hk : has_ev_key d = false).
      { unfold has_ev_key. rewrite Ecap. apply bool_decide_eq_false_2.
        by intros [? ?]. }
      rewrite Hk. cbn [andb]. apply IH.
Qed.

Lemma test_key_accessibility_unfold (devs : list InputDevice) :
  let r := access_loop devs
             {| accessible_devices := []; inaccessible_devices := [];
                total_devices := length devs |} in
  test_key_accessibility (Some devs) =
  (fst r,
   UtilStdout MsgTestingAccessibility
   :: snd r
   ++ [UtilStdout (MsgFoundAccessible (length (accessible_devices (fst r))))]).
Proof.
  cbv zeta. unfold test_key_accessibility.
  cbn [accessible_devices inaccessible_devices].
  unfold mbind, Out_bind, say, mret, Out_ret.
  by destruct (access_loop devs _) as [res out].
Qed.

(** X6. [test_key_accessibility] sorts the devices that report [EV_KEY]
    into the accessible and the inaccessible ones by the grab probe, in
    enumeration order; the two lists together have as many entries as
    there are such devices, at most [total_devices], which counts all
    enumerated devices.  It closes the devices that report [EV_KEY] and
    no other. *)
Theorem test_key_accessibility_spec (devs : list InputDevice) :
  let r := test_key_accessibility (Some devs) in
  accessible_devices (fst r)
    = device_entry <$> List.filter (λ d, has_ev_key d && grabbable d) devs
  ∧ inaccessible_devices (fst r)
    = device_entry <$>
        List.filter (λ d, has_ev_key d && negb (grabbable d)) devs
  ∧ total_devices (fst r) = length devs
  ∧ (length (accessible_devices (fst r))
     + length (inaccessible_devices (fst r))
     = length (List.filter has_ev_key devs))%nat
  ∧ (length (List.filter has_ev_key devs) ≤ total_devices (fst r))%nat
  ∧ (∀ p, UtilClose p ∈ snd r ↔ ∃ d, d ∈ devs ∧ has_ev_key d = true ∧ path d = p).
Proof.
  intros r. subst r. rewrite test_key_accessibility_unfold. cbn [fst snd].
  destruct (access_loop_spec devs
              {| accessible_devices := []; inaccessible_devices := [];
                 total_devices := length devs |}) as (Ha & Hi & Ht & Hc).
  cbn [accessible_devices inaccessible_devices total_devices app] in Ha, Hi, Ht.
  rewrite Ha, Hi, Ht, Hc.
  split; [done|]. split; [done|]. split; [done|]. split; [|split].
  - rewrite !length_fmap. clear.
    induction devs as [|d devs IH]; [done|]. simpl.
    destruct (has_ev_key d); cbn [andb]; [|exact IH].
    destruct (grabbable d); simpl; lia.
  - clear. induction devs as [|d devs IH]; [done|]. simpl.
    destruct (has_ev_key d); simpl; lia.
  - intros p. split.
    + intros Hin. apply elem_of_cons in Hin as [Hin|Hin]; [done|].
      apply elem_of_app in Hin as [Hin|Hin].
      * apply list_elem_of_fmap in Hin as (d & Hp & Hd).
        apply list_elem_of_In, filter_In in Hd as [Hd Hk].
        exists d. split; [by apply list_elem_of_In|].
        split; [done|]. by injection Hp as ->.
      * apply list_elem_of_singleton in Hin. done.
    + intros (d & Hd & Hk & Hp). right. apply elem_of_app. left.
      apply list_elem_of_fmap. exists d. split; [by rewrite Hp|].
      apply list_elem_of_In, filter_In. split; [by apply list_elem_of_In|done].
Qed.

Lemma keyboard_has_ev_key (d : InputDevice) :
  _is_keyboard_device d = true → has_ev_key d = true.
Proof.
  unfold _is_keyboard_device, has_ev_key.
  destruct (capabilities d !! ecodes.EV_KEY); [|done].
  intros _. apply bool_decide_eq_true_2. eauto.
Qed.

(** X7. The two utilities agree: every keyboard that
    [get_available_keyboards] lists is among the accessible devices of
    [test_key_accessibility], under the same name and path. *)
Theorem listed_keyboards_are_accessible
    (devs : list InputDevice) (e : KeyboardEntry) :
  e ∈ fst (get_available_keyboards (Some devs)) →
  {| entry_name := kb_name e; entry_path := kb_path e |}
  ∈ accessible_devices (fst (test_key_accessibility (Some devs))).
Proof.
  unfold get_available_keyboards.
  rewrite available_loop_fst, test_key_accessibility_unfold.
  cbn [fst app]. intros He.
  apply list_elem_of_fmap in He as (d & -> & Hd).
  apply list_elem_of_In, filter_In in Hd as [Hd Hk].
  unfold accessible_keyboard in Hk. apply andb_true_iff in Hk as [Hk Hg].
  destruct (access_loop_spec devs
              {| accessible_devices := []; inaccessible_devices := [];
                 total_devices := length devs |}) as (Ha & _).
  rewrite Ha. cbn [accessible_devices app].
  apply list_elem_of_fmap. exists d. split; [done|].
  apply list_elem_of_In, filter_In. split; [done|].
  by rewrite (keyboard_has_ev_key d Hk), Hg.
Qed.

(** The USB keyboard entry. *)
Lemma listed_keyboards_are_accessible_witness :
  {| entry_name := "USB Keyboard"; entry_path := "/dev/input/event0" |}
  ∈ accessible_devices (fst (test_key_accessibility (Some two_keyboards))).
Proof.
  apply (listed_keyboards_are_accessible two_keyboards
           (keyboard_entry usb_keyboard)).
  left.
Defined.

(** ** Frames *)

Lemma same_config_refl (a : GlobalShortcuts) : same_config a a.
Proof. by repeat split. Qed.

Lemma same_config_trans (a b c : GlobalShortcuts) :
  same_config a b → same_config b c → same_config a c.
Proof.
  intros (H1 & H2 & H3 & H4 & H5) (G1 & G2 & G3 & G4 & G5).
  repeat split; congruence.
Qed.

Lemma same_key_state_refl (a : GlobalShortcuts) : same_key_state a a.
Proof. by repeat split. Qed.

Lemma same_key_state_trans (a b c : GlobalShortcuts) :
  same_key_state a b → same_key_state b c → same_key_state a c.
Proof.
  intros (H1 & H2 & H3 & H4) (G1 & G2 & G3 & G4).
  repeat split; congruence.
Qed.

(** The discovery loop writes the device list and table only. *)
Lemma discover_loop_frame (cands : list InputDevice) :
  ∀ self : GlobalShortcuts,
  let s' := fst (discover_loop cands self) in
  same_config self s' ∧ same_key_state self s'
  ∧ is_running s' = is_running self ∧ stop_event s' = stop_event self.
Proof.
  induction cands as [|d cs IH]; intros self; cbv zeta.
  - repeat split.
  - cbn [discover_loop].
    destruct (_is_keyboard_device d); [|apply IH].
    destruct (grabbable d).
    + rewrite Eff_bind_fst. cbn [fst emit].
      destruct (is_selected _ d); [repeat split|].
      match goal with
      | |- context [discover_loop cs ?S] => destruct (IH S) as (Hc & Hk & Hr & Hs)
      end.
      split; [|split; [|split]].
      * eapply same_config_trans; [|exact Hc]. repeat split.
      * eapply same_key_state_trans; [|exact Hk]. repeat split.
      * by rewrite Hr.
      * by rewrite Hs.
    + rewrite !Eff_bind_fst. apply IH.
Qed.

Lemma discover_keyboards_fst (host : option (list InputDevice))
    (self : GlobalShortcuts) :
  fst (_discover_keyboards host self) =
  match host with
  | None => reset_devices self
  | Some all =>
      fst (discover_loop (fst (select_candidates all (reset_devices self)))
             (reset_devices self))
  end.
Proof.
  unfold _discover_keyboards. rewrite Eff_bind_fst. fold (reset_devices self).
  destruct host as [all|].
  - rewrite Eff_bind_fst.
    set (found := fst (discover_loop _ _)).
    by destruct (devices found).
  - cbn [fst]. rewrite Eff_bind_fst. cbn [fst emit mret Eff_ret].
    by destruct (devices (reset_devices self)).
Qed.

Lemma discover_keyboards_frame (host : option (list InputDevice))
    (self : GlobalShortcuts) :
  let s' := fst (_discover_keyboards host self) in
  same_config self s' ∧ same_key_state self s'
  ∧ is_running s' = is_running self ∧ stop_event s' = stop_event self.
Proof.
  cbv zeta. rewrite discover_keyboards_fst. destruct host as [all|].
  - destruct (discover_loop_frame
                (fst (select_candidates all (reset_devices self)))
                (reset_devices self)) as (Hc & Hk & Hr & Hs).
    split; [|split; [|split]].
    + eapply same_config_trans; [|exact Hc]. repeat split.
    + eapply same_key_state_trans; [|exact Hk]. repeat split.
    + by rewrite Hr.
    + by rewrite Hs.
  - repeat split.
Qed.

(** ** Discovery, continued *)

Lemma select_candidates_subset (all : list InputDevice)
    (self : GlobalShortcuts) (d : InputDevice) :
  d ∈ fst (select_candidates all self) → d ∈ all.
Proof.
  unfold select_candidates. destruct (selected_path self) as [p|]; [|done].
  destruct (List.filter _ all) as [|x l] eqn:E; [done|].
  cbn [fst mret Eff_ret]. rewrite <- E. intros Hd.
  apply list_elem_of_In, filter_In in Hd as [Hd _]. by apply list_elem_of_In.
Qed.

Lemma fds_consistent_add (self : GlobalShortcuts) (d : InputDevice) :
  fds_consistent self →
  fds_consistent
    (set_device_fds (<[fd d := d]> (device_fds self))
       (set_devices (devices self ++ [d]) self)).
Proof.
  intros [Hl Hd]. split; cbn [device_fds devices set_device_fds set_devices].
  - intros i x Hx. destruct (decide (fd d = i)) as [<-|Hne].
    + rewrite lookup_insert_eq in Hx. injection Hx as <-. set_solver.
    + rewrite lookup_insert_ne in Hx by done.
      destruct (Hl i x Hx). set_solver.
  - rewrite dom_insert_L, Hd, fmap_app, list_to_set_app_L. simpl. set_solver.
Qed.

Lemma discover_loop_sound (cands : list InputDevice) :
  ∀ self : GlobalShortcuts,
  let s' := fst (discover_loop cands self) in
  (∀ d, d ∈ devices s' →
        d ∈ devices self ∨ (d ∈ cands ∧ accessible_keyboard d = true))
  ∧ (fds_consistent self → fds_consistent s').
Proof.
  induction cands as [|d cs IH]; intros self; cbv zeta.
  - split; [by left | done].
  - cbn [discover_loop]. unfold accessible_keyboard.
    destruct (_is_keyboard_device d) eqn:Ek.
    + destruct (grabbable d) eqn:Eg.
      * rewrite Eff_bind_fst. cbn [fst emit].
        destruct (is_selected _ d).
        -- cbn [fst mret Eff_ret devices set_device_fds set_devices]. split.
           ++ intros x Hx. apply elem_of_app in Hx as [Hx|Hx]; [by left|].
              apply list_elem_of_singleton in Hx as ->. right.
              split; [by left|]. by rewrite Ek, Eg.
           ++ intros Hf. exact (fds_consistent_add self d Hf).
        -- match goal with
           | |- context [discover_loop cs ?S] => destruct (IH S) as [H1 H2]
           end.
           split.
           ++ intros x Hx. destruct (H1 x Hx) as [Hx'|[Hx' Ha]].
              ** cbn [devices set_device_fds set_devices] in Hx'.
                 apply elem_of_app in Hx' as [Hx'|Hx']; [by left|].
                 apply list_elem_of_singleton in Hx' as ->. right.
                 split; [by left|]. by rewrite Ek, Eg.
              ** right. split; [by right | done].
           ++ intros Hf. apply H2. exact (fds_consistent_add self d Hf).
      * rewrite !Eff_bind_fst. cbn [fst emit].
        destruct (IH self) as [H1 H2]. split; [|done].
        intros x Hx. destruct (H1 x Hx) as [?|[? ?]]; [by left|].
        right. split; [by right | done].
    + destruct (IH self) as [H1 H2]. split; [|done].
      intros x Hx. destruct (H1 x Hx) as [?|[? ?]]; [by left|].
      right. split; [by right | done].
Qed.

(** X8. Whatever the host enumerates and whichever path is selected,
    every device discovery keeps was enumerated, passes the keyboard
    test and the grab probe; the descriptor table lists exactly the kept
    devices, each under its own descriptor; and discovery changes
    nothing but the device list and table. *)
Theorem discovery_sound (all : list InputDevice) (self : GlobalShortcuts) :
  let s' := fst (_discover_keyboards (Some all) self) in
  (∀ d, d ∈ devices s' →
        d ∈ all ∧ _is_keyboard_device d = true ∧ grabbable d = true)
  ∧ fds_consistent s'
  ∧ same_config self s' ∧ same_key_state self s'
  ∧ is_running s' = is_running self ∧ stop_event s' = stop_event self.
Proof.
  cbv zeta. split; [|split].
  - rewrite discover_keyboards_fst. intros d Hd.
    destruct (discover_loop_sound
                (fst (select_candidates all (reset_devices self)))
                (reset_devices self)) as [H1 _].
    destruct (H1 d Hd) as [Hnil | [Hc Ha]].
    + by apply elem_of_nil in Hnil.
    + apply select_candidates_subset in Hc.
      unfold accessible_keyboard in Ha. by apply andb_true_iff in Ha as [? ?].
  - rewrite discover_keyboards_fst.
    apply discover_loop_sound. split.
    + intros i d Hd. cbn in Hd. by rewrite lookup_empty in Hd.
    + cbn. by rewrite dom_empty_L.
  - apply (discover_keyboards_frame (Some all) self).
Qed.

(** With every candidate selected, the loop stops at the first accessible
    keyboard. *)
Lemma discover_loop_selected (cands : list InputDevice) :
  ∀ self : GlobalShortcuts,
  (∀ d, d ∈ cands → is_selected self d = true) →
  devices (fst (discover_loop cands self))
  = devices self ++ option_list (List.find accessible_keyboard cands).
Proof.
  induction cands as [|d cs IH]; intros self Hsel.
  - simpl. by rewrite app_nil_r.
  - cbn [discover_loop List.find]. unfold accessible_keyboard at 1.
    assert (Hcs : ∀ d', d' ∈ cs → is_selected self d' = true).
    { intros d' Hd'. apply Hsel. by right. }
    destruct (_is_keyboard_device d); cbn [andb]; [|by apply IH].
    destruct (grabbable d).
    + rewrite Eff_bind_fst.
      change (is_selected _ d) with (is_selected self d).
      by rewrite (Hsel d) by (by left).
    + rewrite !Eff_bind_fst. by apply IH.
Qed.

Lemma find_filter_path (p : string) (all : list InputDevice) :
  List.find accessible_keyboard
    (List.filter (λ dev, bool_decide (path dev = p)) all)
  = first_accessible_at p all.
Proof.
  unfold first_accessible_at.
  induction all as [|d all IH]; [done|]. cbn [List.filter List.find].
  destruct (bool_decide (path d = p)); cbn [andb List.find]; [|exact IH].
  by destruct (accessible_keyboard d).
Qed.

(** X9. When the selected path is among the enumerated devices, discovery
    keeps at most one device: the first enumerated device of that path
    that passes the keyboard test and the grab probe, and none when there
    is no such device. *)
Theorem discovery_selected_single
    (all : list InputDevice) (self : GlobalShortcuts) (p : string) :
  selected_path self = Some p →
  (∃ d, d ∈ all ∧ path d = p) →
  devices (fst (_discover_keyboards (Some all) self))
  = option_list (first_accessible_at p all).
Proof.
  intros Hsel Hpres. rewrite discover_keyboards_devices.
  unfold select_candidates.
  change (selected_path (reset_devices self)) with (selected_path self).
  rewrite Hsel.
  pose proof (filter_path_present p all Hpres) as Hne.
  destruct (List.filter (λ dev, bool_decide (path dev = p)) all)
    as [|x l] eqn:E; [done|].
  cbn [fst mret Eff_ret]. rewrite <- E.
  rewrite discover_loop_selected.
  - by rewrite find_filter_path.
  - intros d Hd. apply list_elem_of_In, filter_In in Hd as [_ Hd].
    unfold is_selected.
    change (selected_path (reset_devices self)) with (selected_path self).
    by rewrite Hsel.
Qed.

(** The USB keyboard selected among the two keyboards. *)
Lemma discovery_selected_single_witness :
  devices
    (fst (_discover_keyboards (Some two_keyboards)
            (fst (__init__ linux_ecodes_get None "<f12>" None None
                    (Some "/dev/input/event0")))))
  = [usb_keyboard].
Proof.
  apply (discovery_selected_single two_keyboards _ "/dev/input/event0").
  - reflexivity.
  - exists usb_keyboard. split; [left | reflexivity].
Defined.

(** ** start *)

Lemma start_unfold (host : option (list InputDevice)) (self : GlobalShortcuts) :
  is_running self = false →
  let found :=
    match devices self with
    | [] => fst (_discover_keyboards host self)
    | _ => self
    end in
  fst (start host self) =
  match devices found with
  | [] => (false, found)
  | _ => (true, set_is_running true (set_stop_event false found))
  end.
Proof.
  intros Hr. cbv zeta. unfold start. rewrite Hr, Eff_bind_fst.
  destruct (devices self) as [|d0 ds] eqn:Ed.
  - rewrite Eff_bind_fst. cbn [fst emit].
    set (found := fst (_discover_keyboards host self)).
    destruct (devices found); by rewrite Eff_bind_fst.
  - cbn [fst mret Eff_ret]. rewrite Ed. by rewrite Eff_bind_fst.
Qed.

Lemma start_stopped (host : option (list InputDevice)) (self : GlobalShortcuts) :
  is_running self = false →
  let ok := fst (fst (start host self)) in
  let s' := snd (fst (start host self)) in
  (ok = true ↔ devices s' ≠ [])
  ∧ is_running s' = ok
  ∧ (ok = true → stop_event s' = false)
  ∧ (devices self ≠ [] → devices s' = devices self ∧ ok = true)
  ∧ (devices self = [] →
     devices s' = devices (fst (_discover_keyboards host self)))
  ∧ same_config self s' ∧ same_key_state self s'.
Proof.
  intros Hr. cbv zeta. rewrite (start_unfold host self Hr).
  destruct (discover_keyboards_frame host self) as (Hc & Hk & Hr' & Hs').
  destruct (devices self) as [|d0 ds] eqn:Ed.
  - destruct (devices (fst (_discover_keyboards host self))) as [|d1 ds1] eqn:Ef;
      cbn [fst snd].
    + rewrite Ef, Hr', Hr.
      split; [split; [discriminate | intros H; by destruct H]|].
      split; [done|]. split; [discriminate|].
      split; [intros H; by destruct H|].
      split; [done|]. split; [exact Hc | exact Hk].
    + cbn [devices set_is_running set_stop_event is_running stop_event].
      rewrite Ef.
      split; [split; [discriminate | done]|].
      split; [done|]. split; [done|].
      split; [intros H; by destruct H|].
      split; [done|]. split.
      * eapply same_config_trans; [exact Hc|]. repeat split.
      * eapply same_key_state_trans; [exact Hk|]. repeat split.
  - rewrite Ed. cbn [fst snd devices set_is_running set_stop_event
                     is_running stop_event].
    rewrite Ed.
    split; [split; [discriminate | done]|].
    split; [done|]. split; [done|]. split; [done|].
    split; [discriminate|]. split; repeat split.
Qed.



Lemma remove_devices_config (copy : list InputDevice) :
  ∀ self : GlobalShortcuts, same_config self (fst (remove_devices copy self)).
Proof.
  induction copy as [|d l IH]; intros self; [apply same_config_refl|].
  cbn [remove_devices]. rewrite Eff_bind_fst.
  eapply same_config_trans; [|apply IH]. repeat split.
Qed.

Lemma stop_config (self : GlobalShortcuts) : same_config self (fst (stop self)).
Proof.
  unfold stop. destruct (is_running self); [|apply same_config_refl].
  cbn [negb]. rewrite Eff_bind_fst. cbn [fst mret Eff_ret].
  eapply same_config_trans;
    [apply (remove_devices_config (devices self) (set_stop_event true self))|].
  repeat split.
Qed.

(** X11. A restart discovers afresh: [stop] on a running engine empties
    the device list, so the following [start] takes its devices from a
    new discovery on the host as it is then; the pressed set starts
    empty and the configuration is the one before the stop. *)
Theorem restart_rediscovers (host : option (list InputDevice))
    (self : GlobalShortcuts) :
  is_running self = true →
  let stopped := fst (stop self) in
  let s' := snd (fst (start host stopped)) in
  devices s' = devices (fst (_discover_keyboards host stopped))
  ∧ pressed_keys s' = ∅
  ∧ same_config self s'.
Proof.
  intros Hr. cbv zeta.
  destruct (stop_running self Hr) as (Hnr & _ & Hnil & Hp).
  destruct (start_stopped host (fst (stop self)) Hnr)
    as (_ & _ & _ & _ & Hd & Hc & Hk).
  split; [by apply Hd|]. split.
  - destruct Hk as (Hk & _). by rewrite <- Hk.
  - eapply same_config_trans; [apply stop_config | exact Hc].
Qed.

(** The F12 engine is stopped while the USB keyboard is its device and
    restarted when only the locked keyboard is left: no device. *)
Lemma restart_rediscovers_witness :
  devices (snd (fst (start (Some [locked_keyboard]) (fst (stop f12_active)))))
  = []
  ∧ pressed_keys
      (snd (fst (start (Some [locked_keyboard]) (fst (stop f12_active))))) = ∅.
Proof.
  destruct (restart_rediscovers (Some [locked_keyboard]) f12_active eq_refl)
    as (Hd & Hp & _).
  split; [rewrite Hd; reflexivity | exact Hp].
Defined.

(** ** The listener loop *)

Lemma check_shortcut_fst (t : Q) (self : GlobalShortcuts) :
  fst (_check_shortcut_combination t self) =
  if keys_match self then
    if negb (combination_active self)
       && Qgt_bool (t - last_trigger_time self) debounce_time
    then set_combination_active true (set_last_trigger_time t self)
    else self
  else set_combination_active false self.
Proof.
  unfold _check_shortcut_combination.
  destruct (keys_match self); [|done].
  destruct (negb _ && _); [|done].
  by rewrite Eff_bind_fst.
Qed.

Lemma check_release_fst (t : Q) (was : bool) (self : GlobalShortcuts) :
  fst (_check_combination_release t was self) =
  if was && negb (bool_decide (target_keys self ⊆ pressed_keys self)) then
    if Qgt_bool (t - last_release_time self) debounce_time
    then set_combination_active false (set_last_release_time t self)
    else self
  else self.
Proof.
  unfold _check_combination_release.
  destruct (was && _); [|done].
  destruct (Qgt_bool _ _); [|done].
  by rewrite Eff_bind_fst.
Qed.

(** Processing events reads and writes the key tracking only. *)
Lemma process_event_frame (now : Q) (event : InputEvent) (self : GlobalShortcuts) :
  let s' := fst (_process_event now event self) in
  same_config self s'
  ∧ devices s' = devices self ∧ device_fds s' = device_fds self
  ∧ is_running s' = is_running self ∧ stop_event s' = stop_event self.
Proof.
  cbv zeta.
  destruct (process_event_cases now event self)
    as [[_ ->] | [[_ ->] | (_ & _ & ->)]].
  - rewrite check_shortcut_fst.
    destruct (keys_match _); [|repeat split].
    destruct (negb _ && _); repeat split.
  - rewrite check_release_fst.
    destruct (_ && _); [|repeat split].
    destruct (Qgt_bool _ _); repeat split.
  - repeat split.
Qed.

Lemma process_events_frame (events : list (Q * InputEvent)) :
  ∀ self : GlobalShortcuts,
  let s' := fst (process_events events self) in
  same_config self s'
  ∧ devices s' = devices self ∧ device_fds s' = device_fds self
  ∧ is_running s' = is_running self ∧ stop_event s' = stop_event self.
Proof.
  induction events as [|[t e] events IH]; intros self; cbv zeta.
  - repeat split.
  - cbn [process_events]. rewrite Eff_bind_fst.
    destruct (process_event_frame t e self) as (Hc & Hd & Hf & Hr & Hs).
    destruct (IH (fst (_process_event t e self))) as (Hc' & Hd' & Hf' & Hr' & Hs').
    split; [eapply same_config_trans; eassumption|].
    repeat split; congruence.
Qed.

Lemma process_events_app (e1 e2 : list (Q * InputEvent)) :
  ∀ self : GlobalShortcuts,
  process_events (e1 ++ e2) self =
  (fst (process_events e2 (fst (process_events e1 self))),
   snd (process_events e1 self)
   ++ snd (process_events e2 (fst (process_events e1 self)))).
Proof.
  induction e1 as [|[t e] e1 IH]; intros self.
  - cbn [app process_events fst snd mret Eff_ret].
    by destruct (process_events e2 self).
  - cbn [app process_events]. unfold mbind, Eff_bind.
    destruct (_process_event t e self) as [s1 o1].
    rewrite IH.
    destruct (process_events e1 s1) as [s2 o2]. cbn [fst snd].
    destruct (process_events e2 s2) as [s3 o3]. cbn [fst snd].
    by rewrite app_assoc.
Qed.

(** The key tracking does not look at the device list or table. *)
Lemma process_event_devices (now : Q) (event : InputEvent)
    (ds : list InputDevice) (fds : gmap Z InputDevice) (self : GlobalShortcuts) :
  _process_event now event (set_device_fds fds (set_devices ds self)) =
  (set_device_fds fds (set_devices ds (fst (_process_event now event self))),
   snd (_process_event now event self)).
Proof.
  unfold _process_event.
  destruct (ev_type event =? ecodes.EV_KEY); [|done].
  destruct (ev_value event =? key_down).
  - unfold _check_shortcut_combination, keys_match, _trigger_callback.
    cbn [target_keys pressed_keys combination_active last_trigger_time
         callback primary_key set_pressed_keys set_device_fds set_devices].
    destruct (if decide _ then _ else _); [|done].
    destruct (negb _ && _); [|done].
    cbn [callback primary_key set_combination_active set_last_trigger_time
         set_pressed_keys set_device_fds set_devices].
    by destruct (callback self).
  - destruct (ev_value event =? key_up); [|done].
    unfold _check_combination_release, _trigger_release_callback.
    cbn [target_keys pressed_keys combination_active last_release_time
         release_callback primary_key set_pressed_keys set_device_fds
         set_devices].
    destruct (_ && _); [|done].
    destruct (Qgt_bool _ _); [|done].
    cbn [release_callback primary_key set_combination_active
         set_last_release_time set_pressed_keys set_device_fds set_devices].
    by destruct (release_callback self).
Qed.

Lemma process_events_devices (events : list (Q * InputEvent))
    (ds : list InputDevice) (fds : gmap Z InputDevice) :
  ∀ self : GlobalShortcuts,
  process_events events (set_device_fds fds (set_devices ds self)) =
  (set_device_fds fds (set_devices ds (fst (process_events events self))),
   snd (process_events events self)).
Proof.
  induction events as [|[t e] events IH]; intros self; [done|].
  cbn [process_events]. rewrite process_event_devices.
  unfold mbind, Eff_bind.
  destruct (_process_event t e self) as [s1 o1]. cbn [fst snd].
  rewrite IH. by destruct (process_events events s1) as [s2 o2].
Qed.

(** X12. Device eviction.  When the read of a ready device raises, the
    loop reports the lost connection, removes this device from the list,
    deletes its descriptor from the table and closes it; configuration
    and key tracking stay as they are.  The events another device
    delivers afterwards are processed exactly as if the eviction had not
    happened: same key tracking, same engine effects. *)
Theorem read_failure_evicts (self : GlobalShortcuts) (fd1 : Z) (d1 : InputDevice) :
  device_fds self !! fd1 = Some d1 →
  let r := handle_ready fd1 None self in
  fst r = set_device_fds (delete (fd d1) (device_fds self))
            (set_devices (remove_first d1 (devices self)) self)
  ∧ snd r = [LostConnection (name d1); Engine (CloseDevice (path d1))]
  ∧ same_config self (fst r) ∧ same_key_state self (fst r)
  ∧ (∀ fd2 d2 events,
       device_fds (fst r) !! fd2 = Some d2 →
       let r2 := handle_ready fd2 (Some events) (fst r) in
       same_key_state (fst r2) (fst (process_events events self))
       ∧ snd r2 = Engine <$> snd (process_events events self)
       ∧ devices (fst r2) = remove_first d1 (devices self)).
Proof.
  intros H1. cbv zeta.
  assert (Hr : handle_ready fd1 None self =
               (set_device_fds (delete (fd d1) (device_fds self))
                  (set_devices (remove_first d1 (devices self)) self),
                [LostConnection (name d1); Engine (CloseDevice (path d1))])).
  { unfold handle_ready. by rewrite H1. }
  rewrite Hr. cbn [fst snd].
  split; [done|]. split; [done|]. split; [repeat split|]. split; [repeat split|].
  intros fd2 d2 events H2. unfold handle_ready. rewrite H2.
  unfold lift. cbn [fst snd]. rewrite process_events_devices. cbn [fst snd].
  repeat split.
Qed.

(** The USB keyboard fails; F12 then arrives from the spare keyboard and
    fires. *)
Lemma read_failure_evicts_witness :
  let r := handle_ready 3 None f12_two_devices in
  let r2 := handle_ready 5 (Some [(1000%Q, Down 88)]) (fst r) in
  devices (fst r) = [spare_keyboard]
  ∧ snd r = [LostConnection "USB Keyboard"; Engine (CloseDevice "/dev/input/event0")]
  ∧ snd r2 = [Engine (Stdout (MsgTriggered "<f12>"));
              Engine (StartCallbackThread 1%nat)]
  ∧ devices (fst r2) = [spare_keyboard].
Proof.
  cbv zeta.
  destruct (read_failure_evicts f12_two_devices 3 usb_keyboard eq_refl)
    as (Hs & Ho & _ & _ & Hnext).
  destruct (Hnext 5 spare_keyboard [(1000%Q, Down 88)]) as (_ & Ho2 & Hd2).
  { rewrite Hs. reflexivity. }
  split; [rewrite Hs; reflexivity|]. split; [exact Ho|].
  split; [rewrite Ho2; reflexivity | rewrite Hd2; reflexivity].
Defined.

Lemma remove_first_sublist (d : InputDevice) (l : list InputDevice) :
  remove_first d l `sublist_of` l.
Proof.
  induction l as [|x l IH]; [done|]. simpl.
  destruct (decide (x = d)).
  - by apply sublist_cons.
  - by apply sublist_skip.
Qed.

Lemma handle_ready_frame (fd0 : Z) (result : ReadResult) (self : GlobalShortcuts) :
  let s' := fst (handle_ready fd0 result self) in
  same_config self s'
  ∧ is_running s' = is_running self ∧ stop_event s' = stop_event self
  ∧ devices s' `sublist_of` devices self
  ∧ device_fds s' ⊆ device_fds self.
Proof.
  cbv zeta. unfold handle_ready.
  destruct (device_fds self !! fd0) as [device|]; [|by repeat split].
  destruct result as [events|].
  - cbn [lift fst].
    destruct (process_events_frame events self) as (Hc & Hd & Hf & Hr & Hs).
    rewrite Hd, Hf.
    split; [exact Hc|]. split; [exact Hr|]. split; [exact Hs|].
    split; reflexivity.
  - rewrite Out_bind_fst. unfold lift. cbn [fst]. unfold _remove_device.
    rewrite Eff_bind_fst. cbn [fst mret Eff_ret devices device_fds
      is_running stop_event set_device_fds set_devices].
    split; [repeat split|]. split; [done|]. split; [done|].
    split; [apply remove_first_sublist | apply delete_subseteq].
Qed.

Lemma handle_all_ready_frame (ready : list (Z * ReadResult)) :
  ∀ self : GlobalShortcuts,
  let s' := fst (handle_all_ready ready self) in
  same_config self s'
  ∧ is_running s' = is_running self ∧ stop_event s' = stop_event self
  ∧ devices s' `sublist_of` devices self
  ∧ device_fds s' ⊆ device_fds self.
Proof.
  induction ready as [|[fd0 res] ready IH]; intros self; cbv zeta.
  - by repeat split.
  - cbn [handle_all_ready]. rewrite Out_bind_fst.
    destruct (handle_ready_frame fd0 res self) as (Hc & Hr & Hs & Hd & Hf).
    destruct (IH (fst (handle_ready fd0 res self)))
      as (Hc' & Hr' & Hs' & Hd' & Hf').
    split; [eapply same_config_trans; eassumption|].
    split; [congruence|]. split; [congruence|].
    split; [by etrans | by etrans].
Qed.

Lemma event_loop_pass_frame (ready : list (Z * ReadResult)) (self : GlobalShortcuts) :
  let s' := fst (event_loop_pass ready self) in
  same_config self s'
  ∧ is_running s' = is_running self ∧ stop_event s' = stop_event self
  ∧ devices s' `sublist_of` devices self
  ∧ device_fds s' ⊆ device_fds self.
Proof.
  cbv zeta.
  assert (H : event_loop_pass ready self = (self, [])
              ∨ event_loop_pass ready self = handle_all_ready ready self).
  { unfold event_loop_pass. destruct (devices self); [by left | by right]. }
  destruct H as [-> | ->].
  - split; [apply same_config_refl|]. repeat split; reflexivity.
  - apply handle_all_ready_frame.
Qed.

Lemma event_loop_keeps (schedule : list (list (Z * ReadResult))) :
  ∀ self : GlobalShortcuts,
  let s' := fst (_event_loop schedule self) in
  same_config self s'
  ∧ is_running s' = is_running self ∧ stop_event s' = stop_event self
  ∧ devices s' `sublist_of` devices self
  ∧ device_fds s' ⊆ device_fds self.
Proof.
  induction schedule as [|ready rest IH]; intros self; cbv zeta.
  - split; [apply same_config_refl|]. repeat split; reflexivity.
  - cbn [_event_loop]. destruct (stop_event self) eqn:Es.
    + by repeat split.
    + rewrite Out_bind_fst.
      destruct (event_loop_pass_frame ready self) as (Hc & Hr & Hs & Hd & Hf).
      destruct (IH (fst (event_loop_pass ready self)))
        as (Hc' & Hr' & Hs' & Hd' & Hf').
      split; [eapply same_config_trans; eassumption|].
      split; [congruence|]. split; [congruence|].
      split; [by etrans | by etrans].
Qed.

Lemma event_loop_idle (schedule : list (list (Z * ReadResult))) :
  ∀ self : GlobalShortcuts,
  stop_event self = true ∨ devices self = [] →
  _event_loop schedule self = (self, []).
Proof.
  induction schedule as [|ready rest IH]; intros self Hidle; [done|].
  cbn [_event_loop]. destruct (stop_event self) eqn:Es; [done|].
  destruct Hidle as [Hstop | Hnil]; [done|].
  unfold event_loop_pass. rewrite Hnil.
  unfold mbind, Out_bind, mret, Out_ret. cbn iota beta.
  rewrite IH by (by right). done.
Qed.

(** X13. Along any schedule the listener loop keeps the configuration,
    the running flag and the stop event; it never adds a device: the
    device list it ends with is a sublist of the one it started with, and
    the descriptor table a part of the initial table.  With the stop
    event set, or without a device, the loop does nothing whatever the
    schedule offers. *)
Theorem event_loop_frame (schedule : list (list (Z * ReadResult)))
    (self : GlobalShortcuts) :
  let s' := fst (_event_loop schedule self) in
  (same_config self s'
   ∧ is_running s' = is_running self ∧ stop_event s' = stop_event self
   ∧ devices s' `sublist_of` devices self
   ∧ device_fds s' ⊆ device_fds self)
  ∧ (stop_event self = true ∨ devices self = [] →
     _event_loop schedule self = (self, [])).
Proof.
  cbv zeta. split.
  - apply event_loop_keeps.
  - apply event_loop_idle.
Qed.

(** The engine that lost its only device idles through two passes. *)
Lemma event_loop_frame_witness :
  let bare := fst (handle_ready 3 None f12_running) in
  devices bare = []
  ∧ _event_loop [[(3, Some [(1000%Q, Down 88)])]; [(3, None)]] bare = (bare, []).
Proof.
  cbv zeta. split; [reflexivity|].
  apply (proj2 (event_loop_frame _ (fst (handle_ready 3 None f12_running)))).
  right. reflexivity.
Defined.

Lemma handle_all_ready_served (ready : list (Z * ReadResult)) :
  ∀ self : GlobalShortcuts,
  Forall (λ fr : Z * ReadResult, is_Some fr.2) ready →
  fst (handle_all_ready ready self)
    = fst (process_events (served (device_fds self) ready) self)
  ∧ snd (handle_all_ready ready self)
    = Engine <$> snd (process_events (served (device_fds self) ready) self).
Proof.
  induction ready as [|[fd0 res] ready IH]; intros self Hall; [done|].
  apply Forall_cons in Hall as [[events Hres] Hall]. simpl in Hres. subst res.
  cbn [handle_all_ready]. rewrite Out_bind_fst, Out_bind_snd.
  unfold served. cbn [flat_map fst snd]. fold (served (device_fds self) ready).
  unfold handle_ready.
  destruct (device_fds self !! fd0) as [device|].
  - cbn [lift fst snd]. rewrite process_events_app. cbn [fst snd].
    destruct (process_events_frame events self) as (_ & _ & Hf & _).
    destruct (IH (fst (process_events events self)) Hall) as [H1 H2].
    rewrite Hf in H1, H2. rewrite H1, H2. by rewrite fmap_app.
  - cbn [fst snd mret Out_ret app]. by apply IH.
Qed.

(** ** Pressing and releasing *)










(** X17. A release inside the release window is lost: when a target key
    goes up no later than the debounce window after the last release
    stamp, nothing is dispatched and the combination stays active
    although the key is no longer pressed; from that state no Down
    event, of any key at any time, starts the activation callback. *)
Theorem release_inside_window_is_lost (self : GlobalShortcuts)
    (code : Z) (now : Q) :
  combination_active self = true →
  code ∈ target_keys self →
  (now - last_release_time self <= debounce_time)%Q →
  let r := _process_event now (Up code) self in
  snd r = []
  ∧ combination_active (fst r) = true
  ∧ pressed_keys (fst r) = pressed_keys self ∖ {[ code ]}
  ∧ last_release_time (fst r) = last_release_time self
  ∧ (∀ t c, activations (snd (_process_event t (Down c) (fst r))) = 0%nat).
Proof.
  intros Ha Hin Hw. cbv zeta.
  assert (Hr : _process_event now (Up code) self =
               (set_pressed_keys (pressed_keys self ∖ {[ code ]}) self, [])).
  { rewrite process_up, Ha. unfold _check_combination_release.
    rewrite bool_decide_eq_false_2 by (cbn; set_solver).
    cbn [andb negb set_pressed_keys last_release_time].
    apply Qgt_bool_false in Hw. by rewrite Hw. }
  rewrite Hr. cbn [fst snd].
  split; [done|]. split; [exact Ha|]. split; [done|]. split; [done|].
  intros t c. rewrite process_down.
  destruct (keys_match
              (set_pressed_keys
                 (pressed_keys
                    (set_pressed_keys (pressed_keys self ∖ {[ code ]}) self)
                  ∪ {[ c ]})
                 (set_pressed_keys (pressed_keys self ∖ {[ code ]}) self)))
    eqn:Hm.
  - rewrite check_shortcut_quiet; [done | exact Hm | left; exact Ha].
  - by rewrite check_shortcut_reset.
Qed.

(** Two quick taps of F12: the second press fires, at 1000.51, but its
    release at 1000.55 falls into the window of the first release at
    1000.1 and is lost. *)
Lemma release_inside_window_is_lost_witness :
  let s := fst (process_events
                  [(1000%Q, Down 88); ((10001 # 10)%Q, Up 88);
                   ((100051 # 100)%Q, Down 88)] f12_running) in
  let r := _process_event (100055 # 100)%Q (Up 88) s in
  combination_active s = true
  ∧ snd r = []
  ∧ combination_active (fst r) = true
  ∧ pressed_keys (fst r) = ∅.
Proof.
  cbv zeta.
  destruct (release_inside_window_is_lost
              (fst (process_events
                      [(1000%Q, Down 88); ((10001 # 10)%Q, Up 88);
                       ((100051 # 100)%Q, Down 88)] f12_running))
              88 (100055 # 100)%Q) as (Ho & Hc & Hp & _).
  - reflexivity.
  - vm_compute. reflexivity.
  - vm_compute. discriminate.
  - split; [reflexivity|]. split; [exact Ho|]. split; [exact Hc|].
    rewrite Hp. reflexivity.
Defined.

(** ** Invariants along a history *)

Lemma parse_fst_nonempty (ecodes_get : string → option Z) (key_string : string) :
  fst (_parse_key_combination ecodes_get key_string) ≠ ∅.
Proof.
  rewrite parse_key_combination_fst.
  destruct (resolved_codes ecodes_get key_string) as [|c cs].
  - set_solver.
  - cbn [list_to_set]. set_solver.
Qed.

Section HistoryFacts.

Variable ecodes_get : string → option Z.

Lemma init_invariant (host : option (list InputDevice)) (primary_key : string)
    (callback release_callback : option Callable) (device_path : option string) :
  engine_ok (fst (__init__ ecodes_get host primary_key callback release_callback
              device_path)).
Proof.
  unfold __init__. rewrite !Eff_bind_fst. cbn [fst emit mret Eff_ret].
  match goal with
  | |- context [_discover_keyboards host ?S] =>
      destruct (discover_keyboards_frame host S)
        as ((_ & Ht & _) & (Hp & _) & Hr & Hs)
  end.
  cbn [target_keys pressed_keys is_running stop_event] in Ht, Hp, Hr, Hs.
  unfold engine_ok. rewrite <- Ht, <- Hp, Hr.
  split; [apply parse_fst_nonempty|]. split; [done | discriminate].
Qed.

Lemma run_call_invariant (s : GlobalShortcuts) (c : Call) :
  engine_ok s → engine_ok (run_call ecodes_get s c).
Proof.
  intros (Ht & Hp & Hs). destruct c as [host| |new_key|f|ready];
    cbn [run_call].
  - destruct (is_running s) eqn:Er.
    + unfold start. rewrite Er. cbn [fst snd mret Eff_ret]. unfold engine_ok.
      rewrite Er. by repeat split.
    + destruct (start_stopped host s Er)
        as (_ & Hrun & Hstop & _ & _ & (_ & Htk & _) & (Hpk & _)).
      unfold engine_ok. rewrite <- Htk, <- Hpk, Hrun.
      split; [done|]. split; [intros _; by apply Hp | exact Hstop].
  - destruct (is_running s) eqn:Er.
    + destruct (stop_running s Er) as (Hnr & _ & _ & Hpe).
      destruct (stop_config s) as (_ & Htk & _).
      unfold engine_ok. rewrite <- Htk, Hnr, Hpe.
      split; [done|]. split; [done | discriminate].
    + rewrite (stop_not_running s Er). cbn [fst]. unfold engine_ok.
      rewrite Er. by repeat split.
  - unfold update_shortcut. rewrite Eff_bind_fst. cbn [fst snd].
    unfold engine_ok.
    cbn [target_keys pressed_keys is_running stop_event set_target_keys
         set_primary_key].
    split; [apply parse_fst_nonempty | by split].
  - unfold engine_ok. cbn. by repeat split.
  - destruct (is_running s) eqn:Er; [|unfold engine_ok; rewrite Er; by repeat split].
    destruct (event_loop_keeps [ready] s) as ((_ & Htk & _) & Hr & Hst & _).
    unfold engine_ok. rewrite <- Htk, Hr, Hst, Er.
    split; [done|]. split; [discriminate | by intros _; apply Hs].
Qed.

(** X18. Along every history of an engine, from its construction through
    any calls of [start], [stop], [update_shortcut], [set_callback] and
    any passes of the listener loop: the target key set is never empty,
    the pressed set is empty whenever the engine is not running, and the
    stop event is clear whenever it is running. *)
Theorem history_invariant (host : option (list InputDevice))
    (primary_key : string) (callback release_callback : option Callable)
    (device_path : option string) (calls : list Call) :
  let s := run_calls ecodes_get
             (fst (__init__ ecodes_get host primary_key callback
                     release_callback device_path)) calls in
  target_keys s ≠ ∅
  ∧ (is_running s = false → pressed_keys s = ∅)
  ∧ (is_running s = true → stop_event s = false).
Proof.
  cbv zeta. unfold run_calls.
  generalize (init_invariant host primary_key callback release_callback
                device_path).
  generalize (fst (__init__ ecodes_get host primary_key callback
                     release_callback device_path)).
  induction calls as [|c calls IH]; intros s Hs; [exact Hs|].
  cbn [foldl]. apply IH. by apply run_call_invariant.
Qed.

End HistoryFacts.

(** A history: start, F12 down, a new shortcut, stop. *)
Lemma history_invariant_witness :
  let s := run_calls linux_ecodes_get f12_idle
             [CallStart one_keyboard; LoopPass [(3, Some [(1000%Q, Down 88)])];
              CallUpdateShortcut "nothing"; CallStop] in
  is_running s = false ∧ pressed_keys s = ∅ ∧ target_keys s = {[ 88 ]}.
Proof.
  cbv zeta.
  destruct (history_invariant linux_ecodes_get one_keyboard "<f12>"
              (Some 1%nat) (Some 2%nat) None
              [CallStart one_keyboard; LoopPass [(3, Some [(1000%Q, Down 88)])];
               CallUpdateShortcut "nothing"; CallStop]) as (_ & Hp & _).
  split; [reflexivity|]. split; [apply Hp; reflexivity | reflexivity].
Defined.

(** ** Bounds on the parsed key set *)





(** ** Removing a device *)

Lemma remove_first_absent (d : InputDevice) (l : list InputDevice) :
  d ∉ l → remove_first d l = l.
Proof.
  induction l as [|x l IH]; [done|]. intros Hn.
  apply not_elem_of_cons in Hn as [Hne Hn]. simpl.
  rewrite decide_False by done. by rewrite IH.
Qed.

Lemma remove_first_others (d d' : InputDevice) (l : list InputDevice) :
  d' ≠ d → (d' ∈ remove_first d l ↔ d' ∈ l).
Proof.
  intros Hne. induction l as [|x l IH]; [done|]. simpl.
  destruct (decide (x = d)) as [->|Hx].
  - rewrite elem_of_cons. naive_solver.
  - rewrite !elem_of_cons, IH. done.
Qed.

Lemma remove_first_gone (d : InputDevice) (l : list InputDevice) :
  NoDup l → d ∉ remove_first d l.
Proof.
  induction 1 as [|x l Hx Hnd IH]; [apply not_elem_of_nil|]. simpl.
  destruct (decide (x = d)) as [->|Hne]; [done|].
  apply not_elem_of_cons. split; [done | exact IH].
Qed.

(** X20. [_remove_device] takes the device out of the list and its
    descriptor out of the table and leaves every other device and every
    other descriptor in place.  When the list holds no device twice, the
    device is gone afterwards and removing it once more changes nothing
    but closes it again. *)
Theorem remove_device_spec (device : InputDevice) (self : GlobalShortcuts) :
  let s' := fst (_remove_device device self) in
  (∀ d, d ≠ device → (d ∈ devices s' ↔ d ∈ devices self))
  ∧ device_fds s' !! fd device = None
  ∧ (∀ i, i ≠ fd device → device_fds s' !! i = device_fds self !! i)
  ∧ snd (_remove_device device self) = [CloseDevice (path device)]
  ∧ (NoDup (devices self) →
     (device ∉ devices s')
     ∧ _remove_device device s' = (s', [CloseDevice (path device)])).
Proof.
  cbv zeta. unfold _remove_device. rewrite Eff_bind_fst, Eff_bind_snd.
  cbn [fst snd emit mret Eff_ret app devices device_fds set_devices
       set_device_fds].
  split; [intros d Hd; by apply remove_first_others|].
  split; [apply lookup_delete_eq|].
  split; [intros i Hi; by apply lookup_delete_ne|].
  split; [done|]. intros Hnd.
  pose proof (remove_first_gone device (devices self) Hnd) as Hgone.
  split; [exact Hgone|].
  unfold mbind, Eff_bind, emit, mret, Eff_ret. cbn iota beta.
  cbn [devices device_fds set_devices set_device_fds app].
  by rewrite (remove_first_absent _ _ Hgone), delete_delete_eq.
Qed.

(** The USB keyboard removed from the engine with two keyboards. *)
Lemma remove_device_spec_witness :
  devices (fst (_remove_device usb_keyboard f12_two_devices)) = [spare_keyboard]
  ∧ usb_keyboard ∉ devices (fst (_remove_device usb_keyboard f12_two_devices)).
Proof.
  split; [reflexivity|].
  apply (proj2 (proj2 (proj2 (proj2
           (remove_device_spec usb_keyboard f12_two_devices))))).
  apply (bool_decide_unpack _). vm_compute. exact I.
Defined.

(** ** From the configured string to the callback *)






(** * The methods at run time *)

(** ** Results *)

Lemma result_eq {A} (r r' : Result A) :
  outcome r = outcome r' →
  self_after r = self_after r' →
  performed r = performed r' →
  r = r'.
Proof. destruct r, r'. simpl. by intros -> -> ->. Qed.

Lemma run_bind_raise {A B} (m : Run A) (k : A → Run B)
    (self : GlobalShortcuts) (exc : Raised) :
  outcome (m self) = inl exc →
  (m ≫= k) self =
  {| outcome := inl exc; self_after := self_after (m self);
     performed := performed (m self) |}.
Proof. intros H. unfold mbind, Run_bind. cbv zeta. by rewrite H. Qed.

Lemma run_bind_value {A B} (m : Run A) (k : A → Run B)
    (self : GlobalShortcuts) (a : A) :
  outcome (m self) = inr a →
  (m ≫= k) self =
  {| outcome := outcome (k a (self_after (m self)));
     self_after := self_after (k a (self_after (m self)));
     performed := performed (m self)
                  ++ performed (k a (self_after (m self))) |}.
Proof. intros H. unfold mbind, Run_bind. cbv zeta. by rewrite H. Qed.

(** ** One event at run time *)

Section EventFacts.

Variable in_keys : Z → bool.

(** [_process_event] at run time: the exception of [categorize], before
    anything is touched, or else the method as embedded above. *)
Lemma runtime_process_event (now : Q) (event : InputEvent)
    (self : GlobalShortcuts) :
  Runtime._process_event in_keys now event self =
  match raised_by in_keys event with
  | Some exc => {| outcome := inl exc; self_after := self; performed := [] |}
  | None =>
      {| outcome := inr tt;
         self_after := fst (_process_event now event self);
         performed := Eng <$> snd (_process_event now event self) |}
  end.
Proof.
  unfold Runtime._process_event, raised_by, _process_event,
    Runtime.categorize.
  destruct event as [ty c v]. cbn [ev_type ev_code ev_value].
  destruct (ty =? ecodes.EV_KEY); [|done].
  destruct (in_keys c); [|done].
  destruct (Z.eqb_spec v key_down) as [->|Hd].
  { by apply result_eq. }
  destruct (Z.eqb_spec v key_up) as [->|Hu].
  { by apply result_eq. }
  destruct (Z.eqb_spec v key_hold) as [->|Hh].
  { by apply result_eq. }
  done.
Qed.

Lemma first_raise_none (events : list (Q * InputEvent)) :
  Forall (λ te : Q * InputEvent, raised_by in_keys te.2 = None) events →
  first_raise in_keys events = None.
Proof.
  induction 1 as [|te rest Hte _ IH]; [done|].
  cbn [first_raise]. by rewrite Hte, IH.
Qed.

Lemma first_raise_some (before after : list (Q * InputEvent))
    (te : Q * InputEvent) (exc : Raised) :
  Forall (λ te : Q * InputEvent, raised_by in_keys te.2 = None) before →
  raised_by in_keys te.2 = Some exc →
  first_raise in_keys (before ++ te :: after) = Some (before, exc).
Proof.
  intros Hb He. induction Hb as [|x rest Hx _ IH].
  - cbn [app first_raise]. by rewrite He.
  - cbn [app first_raise]. by rewrite Hx, IH.
Qed.

Lemma first_raise_app (a b : list (Q * InputEvent)) :
  first_raise in_keys (a ++ b) =
  match first_raise in_keys a with
  | Some x => Some x
  | None =>
      match first_raise in_keys b with
      | Some (before, exc) => Some (a ++ before, exc)
      | None => None
      end
  end.
Proof.
  induction a as [|te a IH].
  - cbn [app first_raise]. by destruct (first_raise in_keys b) as [[? ?]|].
  - cbn [app first_raise]. destruct (raised_by in_keys te.2); [done|].
    rewrite IH. destruct (first_raise in_keys a) as [[? ?]|]; [done|].
    by destruct (first_raise in_keys b) as [[? ?]|].
Qed.

(** ** A run of events *)

Lemma runtime_process_events (events : list (Q * InputEvent)) :
  ∀ self : GlobalShortcuts,
  Runtime.process_events in_keys events self = run_events in_keys events self.
Proof.
  induction events as [|[t e] events IH]; intros self; [done|].
  cbn [Runtime.process_events]. unfold run_events. cbn [first_raise snd].
  pose proof (runtime_process_event t e self) as He.
  destruct (raised_by in_keys e) as [exc|].
  - rewrite (run_bind_raise _ _ _ exc) by by rewrite He.
    by rewrite He.
  - rewrite (run_bind_value _ _ _ tt) by by rewrite He.
    rewrite He. cbn [self_after performed]. rewrite IH. unfold run_events.
    destruct (first_raise in_keys events) as [[before exc]|].
    + apply result_eq; cbn [outcome self_after performed process_events].
      * done.
      * by rewrite Eff_bind_fst.
      * by rewrite Eff_bind_snd, fmap_app.
    + apply result_eq; cbn [outcome self_after performed process_events].
      * done.
      * by rewrite Eff_bind_fst.
      * by rewrite Eff_bind_snd, fmap_app.
Qed.

Lemma run_events_frame (events : list (Q * InputEvent))
    (self : GlobalShortcuts) :
  let s' := self_after (run_events in_keys events self) in
  same_config self s'
  ∧ devices s' = devices self ∧ device_fds s' = device_fds self
  ∧ is_running s' = is_running self ∧ stop_event s' = stop_event self.
Proof.
  cbv zeta. unfold run_events.
  destruct (first_raise in_keys events) as [[before exc]|];
    apply process_events_frame.
Qed.

Lemma run_events_app (a b : list (Q * InputEvent)) (self : GlobalShortcuts) :
  run_events in_keys (a ++ b) self =
  (run_events in_keys a ≫= λ _, run_events in_keys b) self.
Proof.
  unfold mbind, Run_bind. cbv zeta. unfold run_events.
  rewrite first_raise_app.
  destruct (first_raise in_keys a) as [[before exc]|]; [done|].
  cbn [outcome self_after performed].
  destruct (first_raise in_keys b) as [[before exc]|];
    (apply result_eq; cbn [outcome self_after performed];
     [done | by rewrite process_events_app
           | rewrite process_events_app; cbn [snd]; by rewrite fmap_app]).
Qed.

(** ** The loop *)

Lemma runtime_handle_all_ready (ready : list (Z * ReadResult)) :
  ∀ self : GlobalShortcuts,
  Forall (λ fr : Z * ReadResult, is_Some fr.2) ready →
  Runtime.handle_all_ready in_keys ready self =
  run_events in_keys (served (device_fds self) ready) self.
Proof.
  induction ready as [|[fd0 res] ready IH]; intros self Hall; [done|].
  apply Forall_cons in Hall as [[events Hres] Hall]. simpl in Hres. subst res.
  cbn [Runtime.handle_all_ready].
  unfold served. cbn [flat_map fst snd]. fold (served (device_fds self) ready).
  rewrite run_events_app.
  assert (Hone : Runtime.handle_ready in_keys fd0 (Some events) self =
    run_events in_keys
      match device_fds self !! fd0 with Some _ => events | None => [] end self).
  { unfold Runtime.handle_ready.
    rewrite (run_bind_value _ _ _ self) by done.
    cbn [Runtime.read_self self_after performed app].
    destruct (device_fds self !! fd0).
    - rewrite runtime_process_events. by apply result_eq.
    - by apply result_eq. }
  unfold mbind, Run_bind. cbv zeta. rewrite Hone.
  destruct (outcome (run_events in_keys _ self)) as [exc|[]] eqn:Eo; [done|].
  rewrite IH by done.
  by destruct (run_events_frame
    match device_fds self !! fd0 with Some _ => events | None => [] end self)
    as (_ & _ & -> & _).
Qed.

Lemma runtime_while_not_stopped (schedule : list (list (Z * ReadResult))) :
  ∀ self : GlobalShortcuts,
  stop_event self = false →
  devices self ≠ [] →
  Forall (Forall (λ fr : Z * ReadResult, is_Some fr.2)) schedule →
  Runtime.while_not_stopped in_keys schedule self =
  run_events in_keys (flat_map (served (device_fds self)) schedule) self.
Proof.
  induction schedule as [|ready rest IH]; intros self Hstop Hdev Hall; [done|].
  apply Forall_cons in Hall as [Hready Hall].
  cbn [Runtime.while_not_stopped flat_map].
  rewrite (run_bind_value _ _ _ self) by done.
  cbn [Runtime.read_self self_after performed app]. rewrite Hstop.
  assert (Hpass : Runtime.event_loop_pass in_keys ready self =
                  run_events in_keys (served (device_fds self) ready) self).
  { unfold Runtime.event_loop_pass.
    rewrite (run_bind_value _ _ _ self) by done.
    cbn [Runtime.read_self self_after performed app].
    rewrite <- runtime_handle_all_ready by done.
    destruct (devices self); [done|]. by apply result_eq. }
  rewrite run_events_app. unfold mbind, Run_bind. cbv zeta. rewrite Hpass.
  destruct (run_events_frame (served (device_fds self) ready) self)
    as (_ & Hd & Hf & _ & Hs).
  destruct (outcome (run_events in_keys _ self)) as [exc|[]] eqn:Eo.
  - by apply result_eq.
  - rewrite IH, Hf; [|congruence|congruence|done]. by apply result_eq.
Qed.

End EventFacts.

(** X14. While every read succeeds, a running loop with a device is the
    engine fed with the events of the schedule, in order, up to the first
    event on which [categorize] raises: the loop method itself always
    returns; if no event raises, it ends in the state and with the effects
    of [process_events] on the concatenated events of the ready
    descriptors the table knows; if one raises, it ends in the state
    reached on the events before that one, with their effects followed by
    the error print, and neither the rest of the pass nor a later pass is
    processed. *)
Theorem event_loop_serves (in_keys : Z → bool)
    (schedule : list (list (Z * ReadResult))) (self : GlobalShortcuts) :
  stop_event self = false →
  devices self ≠ [] →
  Forall (Forall (λ fr : Z * ReadResult, is_Some fr.2)) schedule →
  let events := flat_map (served (device_fds self)) schedule in
  let r := Runtime._event_loop in_keys schedule self in
  outcome r = inr tt
  ∧ (Forall (λ te : Q * InputEvent, raised_by in_keys te.2 = None) events →
     self_after r = fst (process_events events self)
     ∧ performed r = Eng <$> snd (process_events events self))
  ∧ (∀ before te after exc,
       events = before ++ te :: after →
       Forall (λ te : Q * InputEvent, raised_by in_keys te.2 = None) before →
       raised_by in_keys te.2 = Some exc →
       self_after r = fst (process_events before self)
       ∧ performed r = (Eng <$> snd (process_events before self))
                       ++ [StdoutErrorInEventLoop exc]).
Proof.
  intros Hstop Hdev Hall events r. subst r.
  unfold Runtime._event_loop, Runtime.try_except. cbv zeta.
  rewrite runtime_while_not_stopped by done. fold events.
  unfold run_events. split; [|split].
  - by destruct (first_raise in_keys events) as [[before exc]|].
  - intros Hok. rewrite (first_raise_none in_keys events Hok). done.
  - intros before te after exc Hev Hok Hexc.
    rewrite Hev, (first_raise_some in_keys before after te exc Hok Hexc).
    done.
Qed.

(** A press and a release of F12 read from two keyboards fire both
    callbacks; a hold of key 84, which evdev has no name for, ends the
    loop before the press of F12 in the next pass is read. *)
Lemma event_loop_serves_witness :
  performed (Runtime._event_loop linux_in_keys
               [[(3, Some [(1000%Q, Down 88)])];
                [(5, Some [(1001%Q, Up 88)])]] f12_two_devices)
  = [Eng (Stdout (MsgTriggered "<f12>")); Eng (StartCallbackThread 1%nat);
     Eng (Stdout (MsgReleased "<f12>")); Eng (StartReleaseThread 2%nat)]
  ∧ (let r := Runtime._event_loop linux_in_keys
                [[(3, Some [(1000%Q, Hold 84)])];
                 [(3, Some [(1001%Q, Down 88)])]] f12_running in
     outcome r = inr tt
     ∧ self_after r = f12_running
     ∧ performed r = [StdoutErrorInEventLoop KeyError]).
Proof.
  split.
  - destruct (event_loop_serves linux_in_keys
                [[(3, Some [(1000%Q, Down 88)])]; [(5, Some [(1001%Q, Up 88)])]]
                f12_two_devices) as (_ & H & _).
    + reflexivity.
    + discriminate.
    + repeat constructor; eexists; reflexivity.
    + destruct H as [_ H]; [repeat constructor|].
      rewrite H. reflexivity.
  - destruct (event_loop_serves linux_in_keys
                [[(3, Some [(1000%Q, Hold 84)])]; [(3, Some [(1001%Q, Down 88)])]]
                f12_running) as (Ho & _ & H).
    + reflexivity.
    + discriminate.
    + repeat constructor; eexists; reflexivity.
    + split; [exact Ho|].
      destruct (H [] (1000%Q, Hold 84) [(1001%Q, Down 88)] KeyError)
        as [Hs Hp]; [reflexivity | constructor | reflexivity |].
      split; [exact Hs | exact Hp].
Defined.

(** ** A press at run time *)

Lemma raised_by_down (in_keys : Z → bool) (code : Z) :
  raised_by in_keys (Down code) =
  if in_keys code then None else Some KeyError.
Proof. unfold raised_by. cbn. by destruct (in_keys code). Qed.

Lemma keys_match_pressed (a b : GlobalShortcuts) :
  target_keys a = target_keys b →
  pressed_keys a = pressed_keys b →
  keys_match a = keys_match b.
Proof. intros Ht Hp. unfold keys_match. by rewrite Ht, Hp. Qed.

(** A press of a key evdev has a name for, with the comparison of
    [_check_shortcut_combination] characterised by [P]. *)
Lemma runtime_down (in_keys : Z → bool) (now : Q) (code : Z)
    (self : GlobalShortcuts) (P : Prop) :
  in_keys code = true →
  let pressed := pressed_keys self ∪ {[ code ]} in
  let r := Runtime._process_event in_keys now (Down code) self in
  (keys_match (set_pressed_keys pressed self) = true ↔ P) →
  outcome r = inr tt
  ∧ pressed_keys (self_after r) = pressed
  ∧ (keys_match (self_after r) = true ↔ P)
  ∧ (P → combination_active self = false →
     (debounce_time < now - last_trigger_time self)%Q →
     combination_active (self_after r) = true
     ∧ last_trigger_time (self_after r) = now
     ∧ performed r = Eng <$> snd (_trigger_callback self))
  ∧ (P →
     combination_active self = true
     ∨ (now - last_trigger_time self <= debounce_time)%Q →
     self_after r = set_pressed_keys pressed self ∧ performed r = [])
  ∧ (¬ P → combination_active (self_after r) = false ∧ performed r = [])
  ∧ (∀ f, callback self = Some f →
       (Eng (StartCallbackThread f) ∈ performed r
        ↔ P ∧ combination_active self = false
          ∧ (debounce_time < now - last_trigger_time self)%Q)).
Proof.
  intros Hin pressed r HP. subst r.
  rewrite runtime_process_event, raised_by_down, Hin, process_down.
  fold pressed. cbn [outcome self_after performed].
  set (s1 := set_pressed_keys pressed self) in *.
  assert (Hm : keys_match (fst (_check_shortcut_combination now s1))
               = keys_match s1).
  { apply keys_match_pressed; rewrite check_shortcut_fst;
      destruct (keys_match s1); try done; by destruct (negb _ && _). }
  assert (Hpr : pressed_keys (fst (_check_shortcut_combination now s1))
                = pressed).
  { rewrite check_shortcut_fst.
    destruct (keys_match s1); try done; by destruct (negb _ && _). }
  split; [done|]. split; [exact Hpr|]. split; [by rewrite Hm|].
  split; [|split; [|split]].
  - intros HPt Ha Hd.
    rewrite (check_shortcut_fire now s1); [done|by apply HP|done|done].
  - intros HPt Hq.
    rewrite (check_shortcut_quiet now s1); [done|by apply HP|done].
  - intros HnP.
    rewrite (check_shortcut_reset now s1); [done|].
    destruct (keys_match s1) eqn:E; [|done]. by destruct HnP; apply HP.
  - intros f Hf. split.
    + intros Hel. destruct (keys_match s1) eqn:E.
      * destruct (combination_active self) eqn:Ea.
        { rewrite (check_shortcut_quiet now s1) in Hel by (by try left).
          by apply elem_of_nil in Hel. }
        destruct (Qlt_le_dec debounce_time (now - last_trigger_time self))
          as [Hd|Hd].
        { split; [by apply HP|done]. }
        rewrite (check_shortcut_quiet now s1) in Hel by (by try right).
        by apply elem_of_nil in Hel.
      * rewrite (check_shortcut_reset now s1) in Hel by done.
        by apply elem_of_nil in Hel.
    + intros (HPt & Ha & Hd).
      rewrite (check_shortcut_fire now s1); [|by apply HP|done|done].
      cbn [snd]. unfold _trigger_callback. cbn [callback s1 set_pressed_keys].
      rewrite Hf. cbn. set_solver.
Qed.

(** **** C4 *)



(** **** C6 *)

(** C6, amended. A Down event of a key evdev has a name for, after which
    the comparison on the pressed set is false, leaves the combination
    inactive, whatever the state and the clock were, and starts no
    thread.  On a Down event of any other key code [categorize] raises
    [KeyError] before the pressed set or the state is touched. *)
Theorem down_mismatch_resets (in_keys : Z → bool) (now : Q) (code : Z)
    (self : GlobalShortcuts) :
  let r := Runtime._process_event in_keys now (Down code) self in
  (in_keys code = true →
   keys_match (self_after r) = false →
   outcome r = inr tt
   ∧ pressed_keys (self_after r) = pressed_keys self ∪ {[ code ]}
   ∧ combination_active (self_after r) = false
   ∧ performed r = [])
  ∧ (in_keys code = false →
     outcome r = inl KeyError ∧ self_after r = self ∧ performed r = []).
Proof.
  cbv zeta. split.
  - intros Hin Hm.
    destruct (runtime_down in_keys now code self
                (keys_match (set_pressed_keys (pressed_keys self ∪ {[ code ]})
                               self) = true) Hin)
      as (Ho & Hp & Hk & _ & _ & Hreset & _); [done|].
    split; [exact Ho|]. split; [exact Hp|].
    apply Hreset. rewrite <- Hk. by rewrite Hm.
  - intros Hin. by rewrite runtime_process_event, raised_by_down, Hin.
Qed.

(** F12 is held and active; pressing Shift as well breaks the exact
    match.  Key code 84 has no name: its press changes nothing. *)
Lemma down_mismatch_resets_witness :
  combination_active f12_active = true
  ∧ (let r := Runtime._process_event linux_in_keys 1001 (Down 42) f12_active in
     combination_active (self_after r) = false ∧ performed r = [])
  ∧ (let r := Runtime._process_event linux_in_keys 1001 (Down 84) f12_active in
     outcome r = inl KeyError ∧ self_after r = f12_active).
Proof.
  split; [reflexivity|]. split.
  - destruct (proj1 (down_mismatch_resets linux_in_keys 1001 42 f12_active))
      as (_ & _ & Ha & Hp); [reflexivity | vm_compute; reflexivity |].
    split; [exact Ha | exact Hp].
  - destruct (proj2 (down_mismatch_resets linux_in_keys 1001 84 f12_active))
      as (Ho & Hs & _); [reflexivity|].
    split; [exact Ho | exact Hs].
Defined.

(** The claim as first worded fails: after a tap released inside the
    release window the combination is active with nothing held; the press
    of key 84 then raises in [categorize], the comparison on the pressed
    set is false, and the combination is still active. *)
Lemma down_unknown_code_stays_active :
  let r := Runtime._process_event linux_in_keys 2000 (Down 84) f12_stuck in
  combination_active f12_stuck = true
  ∧ outcome r = inl KeyError
  ∧ keys_match (self_after r) = false
  ∧ combination_active (self_after r) = true.
Proof. vm_compute. done. Qed.

(** ** Parsing and updating at run time *)

Section ParseFacts.

Variables lower upper strip : string → string.
Variable encodable : string → bool.
Variable ecodes_get : string → option Z.

Lemma runtime_py_print (m : Message) (self : GlobalShortcuts) :
  Runtime.py_print encodable m self =
  if Runtime.printable encodable m
  then {| outcome := inr tt; self_after := self;
          performed := [Eng (Stdout m)] |}
  else {| outcome := inl UnicodeEncodeError; self_after := self;
          performed := [] |}.
Proof. unfold Runtime.py_print. by destruct (Runtime.printable encodable m). Qed.

Lemma printable_all (m : Message) :
  (∀ t, encodable t = true) → Runtime.printable encodable m = true.
Proof. intros H. destruct m; cbn; rewrite ?H; done. Qed.

Lemma runtime_string_to_keycode (key_string : string) (self : GlobalShortcuts) :
  let key_name := Runtime.resolve_key_name upper (strip (lower key_string)) in
  let r := Runtime._string_to_keycode lower upper strip encodable ecodes_get
             key_string self in
  self_after r = self
  ∧ (∀ keycode, outcome r = inr keycode → keycode = ecodes_get key_name)
  ∧ (∀ exc, outcome r = inl exc → exc = UnicodeEncodeError)
  ∧ ((∀ t, encodable t = true) → outcome r = inr (ecodes_get key_name)).
Proof.
  cbv zeta. unfold Runtime._string_to_keycode. cbv zeta.
  destruct (ecodes_get _) as [code|] eqn:E.
  - cbn. repeat split; intros; congruence.
  - unfold mbind, Run_bind. cbv zeta. rewrite runtime_py_print.
    pose proof (printable_all
      (WarnUnknownKeyString key_string
         (Runtime.resolve_key_name upper (strip (lower key_string))))) as Hall.
    destruct (Runtime.printable _ _); cbn.
    + repeat split; intros; congruence.
    + repeat split; intros; try congruence. by specialize (Hall H).
Qed.

Lemma runtime_parse_loop (key_string : string) (parts : list string) :
  ∀ (keys : gset Z) (self : GlobalShortcuts),
  let r := Runtime.parse_loop lower upper strip encodable ecodes_get
             key_string parts keys self in
  self_after r = self
  ∧ (∀ K, outcome r = inr K →
       K = keys ∪ list_to_set
                    (omap ecodes_get
                       (Runtime.token_key_name lower upper strip <$> parts)))
  ∧ (∀ exc, outcome r = inl exc → exc = UnicodeEncodeError)
  ∧ ((∀ t, encodable t = true) → ∃ K, outcome r = inr K).
Proof.
  induction parts as [|part rest IH]; intros keys self; cbv zeta.
  - cbn. split; [done|]. split; [|split].
    + intros K [= <-]. set_solver.
    + intros exc [=].
    + intros _. by eexists.
  - cbn [Runtime.parse_loop].
    destruct (runtime_string_to_keycode (strip part) self)
      as (Hs & Hv & He & Ht).
    unfold mbind, Run_bind. cbv zeta.
    destruct (outcome (Runtime._string_to_keycode _ _ _ _ _ _ _))
      as [exc|keycode] eqn:Eo.
    + cbn [outcome self_after performed]. split; [exact Hs|].
      split; [intros K [=]|]. split; [intros exc' [= <-]; by apply He|].
      intros Hall. specialize (Ht Hall). congruence.
    + rewrite Hs. specialize (Hv keycode eq_refl).
      cbn [outcome self_after performed].
      cbn [fmap list_fmap omap list_omap].
      fold (Runtime.token_key_name lower upper strip part) in Hv.
      rewrite <- Hv.
      destruct keycode as [code|].
      * destruct (IH (keys ∪ {[ code ]}) self) as (Is & Iv & Ie & It).
        split; [exact Is|]. split; [|split; [exact Ie|exact It]].
        intros K HK. rewrite (Iv K HK). set_solver.
      * rewrite runtime_py_print.
        pose proof (printable_all
          (WarnCouldNotParseKey (strip part) key_string)) as Hall.
        destruct (Runtime.printable _ _); cbn [outcome self_after performed].
        { destruct (IH keys self) as (Is & Iv & Ie & It).
          split; [exact Is|]. split; [exact Iv|]. split; [exact Ie|exact It]. }
        split; [done|]. split; [intros K [=]|]. split; [by intros exc [= <-]|].
        intros H. by specialize (Hall H).
Qed.

Lemma runtime_parse_key_combination (key_string : string)
    (self : GlobalShortcuts) :
  let r := Runtime._parse_key_combination lower upper strip encodable
             ecodes_get key_string self in
  let codes : gset Z :=
    list_to_set (Runtime.resolved_codes lower upper strip ecodes_get
                   key_string) in
  self_after r = self
  ∧ (∀ K, outcome r = inr K →
       K = (if decide (codes = ∅) then {[ ecodes.KEY_F12 ]} else codes)
       ∧ K ≠ ∅)
  ∧ (∀ exc, outcome r = inl exc → exc = UnicodeEncodeError)
  ∧ ((∀ t, encodable t = true) → ∃ K, outcome r = inr K).
Proof.
  cbv zeta. unfold Runtime._parse_key_combination.
  destruct (runtime_parse_loop key_string
              (Runtime.split_parts lower strip key_string) ∅ self)
    as (Hs & Hv & He & Ht).
  unfold mbind, Run_bind. cbv zeta.
  destruct (outcome (Runtime.parse_loop _ _ _ _ _ _ _ _ _))
    as [exc|keys] eqn:Eo.
  - cbn [outcome self_after performed]. split; [exact Hs|].
    split; [intros K [=]|]. split; [intros exc' [= <-]; by apply He|].
    intros Hall. destruct (Ht Hall) as [K HK]. congruence.
  - rewrite Hs. specialize (Hv keys eq_refl).
    rewrite (left_id_L ∅ (∪)) in Hv.
    fold (Runtime.key_names lower upper strip key_string) in Hv.
    fold (Runtime.resolved_codes lower upper strip ecodes_get key_string)
      in Hv.
    rewrite <- Hv.
    destruct (decide (keys = ∅)) as [Hk|Hk].
    + rewrite runtime_py_print.
      pose proof (printable_all (WarnDefaultingToF12 key_string)) as Hall.
      destruct (Runtime.printable _ _); cbn [outcome self_after performed].
      * split; [done|]. split; [|split; [intros exc [=]|by eexists]].
        intros K [= <-]. subst keys. split; set_solver.
      * split; [done|]. split; [intros K [=]|].
        split; [by intros exc [= <-]|].
        intros H. by specialize (Hall H).
    + cbn [outcome self_after performed].
      split; [done|]. split; [|split; [intros exc [=]|by eexists]].
      by intros K [= <-].
Qed.


End ParseFacts.

(** **** C8 *)




(** ** ASCII texts *)

Lemma is_ascii_lower (s : string) :
  is_ascii s = true → is_ascii (PyStr.lower s) = true.
Proof.
  induction s as [|c s IH]; [done|].
  cbn [is_ascii PyStr.lower PyStr.map_chars]. rewrite !andb_true_iff.
  intros [Hc Hs]. split; [|by apply IH].
  revert Hc. destruct c as [[] [] [] [] [] [] [] []]; vm_compute; done.
Qed.

Lemma is_ascii_upper (s : string) :
  is_ascii s = true → is_ascii (PyStr.upper s) = true.
Proof.
  induction s as [|c s IH]; [done|].
  cbn [is_ascii PyStr.upper PyStr.map_chars]. rewrite !andb_true_iff.
  intros [Hc Hs]. split; [|by apply IH].
  revert Hc. destruct c as [[] [] [] [] [] [] [] []]; vm_compute; done.
Qed.

Lemma is_ascii_lstrip (s : string) :
  is_ascii s = true → is_ascii (PyStr.lstrip s) = true.
Proof.
  induction s as [|c s IH]; [done|]. cbn [PyStr.lstrip].
  destruct (PyStr.is_space c); [|done].
  cbn [is_ascii]. rewrite andb_true_iff. intros [_ Hs]. by apply IH.
Qed.

Lemma is_ascii_rstrip (s : string) :
  is_ascii s = true → is_ascii (PyStr.rstrip s) = true.
Proof.
  induction s as [|c s IH]; [done|]. cbn [PyStr.rstrip is_ascii].
  rewrite andb_true_iff. intros [Hc Hs]. specialize (IH Hs).
  destruct (PyStr.rstrip s) as [|c' r'].
  - destruct (PyStr.is_space c); [done|]. cbn [is_ascii]. by rewrite Hc.
  - cbn [is_ascii] in *. by rewrite Hc, IH.
Qed.

Lemma is_ascii_strip (s : string) :
  is_ascii s = true → is_ascii (PyStr.strip s) = true.
Proof. intros H. by apply is_ascii_rstrip, is_ascii_lstrip. Qed.

Lemma is_ascii_remove_char (c : ascii) (s : string) :
  is_ascii s = true → is_ascii (PyStr.remove_char c s) = true.
Proof.
  induction s as [|d s IH]; [done|]. cbn [PyStr.remove_char is_ascii].
  rewrite andb_true_iff. intros [Hd Hs].
  destruct (Ascii.eqb d c); [by apply IH|].
  cbn [is_ascii]. by rewrite Hd, IH.
Qed.

Lemma is_ascii_split (c : ascii) (s : string) :
  is_ascii s = true →
  Forall (λ part, is_ascii part = true) (PyStr.split c s).
Proof.
  induction s as [|d s IH]; [by repeat constructor|].
  cbn [PyStr.split is_ascii]. rewrite andb_true_iff. intros [Hd Hs].
  specialize (IH Hs). destruct (Ascii.eqb d c).
  - by constructor.
  - destruct (PyStr.split c s) as [|p ps].
    + repeat constructor. cbn [is_ascii]. by rewrite Hd.
    + apply Forall_cons in IH as [Hp Hps]. constructor; [|done].
      cbn [is_ascii]. by rewrite Hd, Hp.
Qed.

Section AsciiFacts.

Variables lower upper strip : string → string.
Hypothesis lower_ascii : ascii_agree lower PyStr.lower.
Hypothesis upper_ascii : ascii_agree upper PyStr.upper.
Hypothesis strip_ascii : ascii_agree strip PyStr.strip.

Lemma runtime_split_parts_ascii (s : string) :
  is_ascii s = true →
  Runtime.split_parts lower strip s = split_parts s
  ∧ Forall (λ part, is_ascii part = true) (split_parts s).
Proof.
  intros Hs. unfold Runtime.split_parts, split_parts.
  rewrite (lower_ascii s Hs).
  rewrite (strip_ascii (PyStr.lower s)) by by apply is_ascii_lower.
  split; [done|].
  by apply is_ascii_split, is_ascii_remove_char, is_ascii_remove_char,
    is_ascii_strip, is_ascii_lower.
Qed.

Lemma runtime_token_key_name_ascii (part : string) :
  is_ascii part = true →
  Runtime.token_key_name lower upper strip part = token_key_name part.
Proof.
  intros Hp. unfold Runtime.token_key_name, token_key_name.
  rewrite (strip_ascii part Hp).
  rewrite (lower_ascii (PyStr.strip part)) by by apply is_ascii_strip.
  rewrite (strip_ascii (PyStr.lower (PyStr.strip part)))
    by by apply is_ascii_lower, is_ascii_strip.
  unfold Runtime.resolve_key_name, resolve_key_name.
  destruct (KEY_ALIASES !! _); [done|].
  by rewrite (upper_ascii (PyStr.strip (PyStr.lower (PyStr.strip part))))
    by by apply is_ascii_strip, is_ascii_lower, is_ascii_strip.
Qed.

(** On an ASCII text the parts stand for the names computed above. *)
Lemma runtime_key_names_ascii (s : string) :
  is_ascii s = true →
  Runtime.key_names lower upper strip s = key_names s.
Proof.
  intros Hs. unfold Runtime.key_names, key_names.
  destruct (runtime_split_parts_ascii s Hs) as [-> Hparts].
  induction Hparts as [|part parts Hp _ IH]; [done|].
  cbn [fmap list_fmap]. rewrite runtime_token_key_name_ascii by done.
  f_equal. exact IH.
Qed.

End AsciiFacts.

(** ** Casing and aliases *)

Section CasingFacts.

Variables lower upper strip : string → string.
Variable encodable : string → bool.
Variable ecodes_get : string → option Z.

(** The parsed set depends on the evdev names of the parts only. *)
Lemma runtime_parse_by_key_names (s s' : string) :
  Runtime.key_names lower upper strip s
  = Runtime.key_names lower upper strip s' →
  parse_alike
    (Runtime._parse_key_combination lower upper strip encodable ecodes_get)
    s s'.
Proof.
  intros H self self' K K' HK HK'.
  destruct (runtime_parse_key_combination lower upper strip encodable
              ecodes_get s self) as (_ & Hv & _).
  destruct (runtime_parse_key_combination lower upper strip encodable
              ecodes_get s' self') as (_ & Hv' & _).
  destruct (Hv K HK) as [-> _]. destruct (Hv' K' HK') as [-> _].
  unfold Runtime.resolved_codes. by rewrite H.
Qed.

Lemma runtime_parse_by_lower (s s' : string) :
  lower s = lower s' →
  parse_alike
    (Runtime._parse_key_combination lower upper strip encodable ecodes_get)
    s s'.
Proof.
  intros H. apply runtime_parse_by_key_names.
  unfold Runtime.key_names, Runtime.split_parts. by rewrite H.
Qed.

(** On an ASCII text the parse returns the set computed above. *)
Lemma runtime_parse_ascii (s : string) (self : GlobalShortcuts) (K : gset Z) :
  ascii_agree lower PyStr.lower →
  ascii_agree upper PyStr.upper →
  ascii_agree strip PyStr.strip →
  is_ascii s = true →
  outcome (Runtime._parse_key_combination lower upper strip encodable
             ecodes_get s self) = inr K →
  K = fst (_parse_key_combination ecodes_get s).
Proof.
  intros Hl Hu Hst Hs HK.
  destruct (runtime_parse_key_combination lower upper strip encodable
              ecodes_get s self) as (_ & Hv & _).
  destruct (Hv K HK) as [-> _].
  rewrite parse_key_combination_fst, resolved_codes_key_names.
  unfold Runtime.resolved_codes.
  rewrite (runtime_key_names_ascii lower upper strip Hl Hu Hst s Hs).
  destruct (omap ecodes_get (key_names s)) as [|c cs] eqn:E.
  - by rewrite decide_True.
  - rewrite decide_False; [done|].
    intros H. by apply list_to_set_empty_nil in H.
Qed.

End CasingFacts.

(** **** C9 *)

(** C9, amended. Whatever the string functions and the evdev name
    table: two strings with the same lower-casing parse to the same key
    set whenever both parses return, and so do a string and its upper- or
    lower-cased form where lower-casing undoes that casing; two strings
    whose parts stand for the same evdev names parse to the same key set,
    and two aliases of one name resolve to the code of that name; where
    every text can be printed the parse returns.  Where the string
    functions act on ASCII texts as modelled above, an ASCII string parses
    like its upper- and its lower-cased form, to the set
    [_parse_key_combination] computes above, and "Ctrl+Alt+D" parses like
    "lctrl+lalt+d". *)
Theorem parse_casing_alias_invariant (lower upper strip : string → string)
    (encodable : string → bool) (ecodes_get : string → option Z) :
  let parse :=
    Runtime._parse_key_combination lower upper strip encodable ecodes_get in
  (∀ s s', lower s = lower s' → parse_alike parse s s')
  ∧ (∀ s,
       (lower (upper s) = lower s → parse_alike parse (upper s) s)
       ∧ (lower (lower s) = lower s → parse_alike parse (lower s) s))
  ∧ (∀ s s',
       Runtime.key_names lower upper strip s
       = Runtime.key_names lower upper strip s' →
       parse_alike parse s s')
  ∧ (∀ a b key_name,
       KEY_ALIASES !! strip (lower a) = Some key_name →
       KEY_ALIASES !! strip (lower b) = Some key_name →
       ∀ self self' ka kb,
         outcome (Runtime._string_to_keycode lower upper strip encodable
                    ecodes_get a self) = inr ka →
         outcome (Runtime._string_to_keycode lower upper strip encodable
                    ecodes_get b self') = inr kb →
         ka = ecodes_get key_name ∧ kb = ecodes_get key_name)
  ∧ ((∀ t, encodable t = true) →
     ∀ s self, ∃ K, outcome (parse s self) = inr K ∧ K ≠ ∅)
  ∧ (ascii_agree lower PyStr.lower →
     ascii_agree upper PyStr.upper →
     ascii_agree strip PyStr.strip →
     (∀ s, is_ascii s = true →
        parse_alike parse (upper s) s
        ∧ parse_alike parse (lower s) s
        ∧ ∀ self K, outcome (parse s self) = inr K →
                    K = fst (_parse_key_combination ecodes_get s))
     ∧ parse_alike parse "Ctrl+Alt+D" "lctrl+lalt+d").
Proof.
  cbv zeta.
  split; [apply runtime_parse_by_lower|].
  split; [intros s; split; apply runtime_parse_by_lower|].
  split; [apply runtime_parse_by_key_names|]. split; [|split].
  - intros a b key_name Ha Hb self self' ka kb Hka Hkb.
    destruct (runtime_string_to_keycode lower upper strip encodable
                ecodes_get a self) as (_ & Hva & _).
    destruct (runtime_string_to_keycode lower upper strip encodable
                ecodes_get b self') as (_ & Hvb & _).
    rewrite (Hva ka Hka), (Hvb kb Hkb).
    unfold Runtime.resolve_key_name. by rewrite Ha, Hb.
  - intros Hall s self.
    destruct (runtime_parse_key_combination lower upper strip encodable
                ecodes_get s self) as (_ & Hv & _ & Ht).
    destruct (Ht Hall) as [K HK]. exists K. split; [done|].
    by destruct (Hv K HK).
  - intros Hl Hu Hst. split.
    + intros s Hs. split; [|split].
      * apply runtime_parse_by_lower.
        rewrite (Hu s Hs), (Hl s Hs).
        rewrite (Hl (PyStr.upper s)) by by apply is_ascii_upper.
        apply lower_upper.
      * apply runtime_parse_by_lower.
        rewrite (Hl s Hs).
        rewrite (Hl (PyStr.lower s)) by by apply is_ascii_lower.
        apply lower_lower.
      * intros self K. by apply runtime_parse_ascii.
    + apply runtime_parse_by_key_names.
      rewrite !(runtime_key_names_ascii lower upper strip Hl Hu Hst)
        by reflexivity.
      reflexivity.
Qed.

(** Mixed casings of one chord; the aliases "ctrl" and "control"; the
    upper-casing of an ASCII string. *)
Lemma parse_casing_alias_invariant_witness :
  let parse := Runtime._parse_key_combination PyStr.lower PyStr.upper
                 PyStr.strip utf8_encodable linux_ecodes_get in
  parse_alike parse "CTRL+alt+d" "ctrl+ALT+D"
  ∧ parse_alike parse (PyStr.upper "Shift+a") "Shift+a"
  ∧ parse_alike parse "Ctrl+Alt+D" "lctrl+lalt+d"
  ∧ (∀ self self' ka kb,
       outcome (Runtime._string_to_keycode PyStr.lower PyStr.upper PyStr.strip
                  utf8_encodable linux_ecodes_get "ctrl" self) = inr ka →
       outcome (Runtime._string_to_keycode PyStr.lower PyStr.upper PyStr.strip
                  utf8_encodable linux_ecodes_get "Control" self') = inr kb →
       ka = Some 29 ∧ kb = Some 29)
  ∧ outcome (parse "Ctrl+Alt+D" f12_idle) = inr {[ 29; 56; 32 ]}.
Proof.
  cbv zeta.
  destruct (parse_casing_alias_invariant PyStr.lower PyStr.upper PyStr.strip
              utf8_encodable linux_ecodes_get)
    as (Hcase & _ & _ & Halias & _ & Hascii).
  destruct Hascii as [Hs Hex]; [by intros s _ ..|].
  split; [by apply Hcase|]. split; [by apply (Hs "Shift+a")|].
  split; [exact Hex|]. split.
  - intros self self' ka kb Hka Hkb.
    by apply (Halias "ctrl" "Control" "KEY_LEFTCTRL" eq_refl eq_refl
                self self').
  - vm_compute. reflexivity.
Defined.

(** The claim as first worded fails.  [str.upper] maps the long s,
    U+017F, to S: "ſhift" upper-cased is "SHIFT".  Parsed as it is,
    "ſhift" names KEY_SHIFT, which evdev does not have, so the set is the
    F12 default; parsed in upper case it is the alias of the left Shift
    key. *)
Lemma parse_casing_long_s :
  let parse := Runtime._parse_key_combination PyStr.lower upper_long_s
                 PyStr.strip utf8_encodable linux_ecodes_get in
  upper_long_s "ſhift" = "SHIFT"
  ∧ outcome (parse "ſhift" f12_idle) = inr {[ 88 ]}
  ∧ outcome (parse (upper_long_s "ſhift") f12_idle) = inr {[ 42 ]}.
Proof. vm_compute. done. Qed.
